(** * Layout_detection.py: a shallow embedding of [detect_layout]

    The script opens a PDF through two libraries, walks the pages, collects
    text, tables, images, lines and per-character data, groups the characters
    into font-size runs, draws rectangles on a second in-memory copy of the
    document and finally writes the annotated PDF and a JSON report.

    Modelling choices.
    - A Python [str] is a list of Unicode code points ([pystr]).
    - Font sizes and coordinates are Python floats.  The script only compares
      them for equality, copies them and formats them, so they are an
      abstract type [Num] with decidable equality and a formatting function
      [show] (Python's [str] on a float).  NaN is not a font size.
    - [OrderedDict] and [dict] are association lists in insertion order.
    - The libraries' answers for a page (text, tables, images, lines, chars,
      found tables) are the fields of a [Page]; a page on which a library
      call raises is [Unreadable].
    - Console and file-system effects are recorded as a trace of events.
      The calls that reach the file system ([os.makedirs], the document's
      [save], [open] with [json.dump]) may raise: a [host] says for each of
      them whether it returns.  [os.makedirs] of the empty name and [save]
      of a document without pages raise on every host.
    - The records of [page.lines] are dictionaries of Python values
      ([pyval]), tuples included.
    - [json.dump] is followed down to the JSON value it writes, not to the
      characters of the file; [json.load] is followed up from that value.

    The file has five parts: the program, the vocabulary of its
    specification, auxiliary lemmas, the properties C1 to C10, and further
    properties of the program, X1 to X18. *)

From Stdlib Require Import NArith ZArith String Ascii.
From stdpp Require Import base option list.

Open Scope N_scope.
Open Scope list_scope.

(** * Part I: the program *)

(** ** Python strings *)

Definition pystr := list N.

(** A literal of ASCII characters as code points. *)
Definition lit (s : string) : pystr := map N_of_ascii (list_ascii_of_string s).

(** [str.isspace] on one code point: the Unicode white-space table of
    CPython ([_PyUnicode_IsWhitespace]). *)
Definition isspace (c : N) : bool :=
  ((9 <=? c) && (c <=? 13)) || ((28 <=? c) && (c <=? 32)) ||
  (c =? 133) || (c =? 160) || (c =? 5760) ||
  ((8192 <=? c) && (c <=? 8202)) ||
  (c =? 8232) || (c =? 8233) || (c =? 8239) || (c =? 8287) || (c =? 12288).

Fixpoint lstrip (s : pystr) : pystr :=
  match s with
  | [] => []
  | c :: s' => if isspace c then lstrip s' else s
  end.

Definition rstrip (s : pystr) : pystr := rev (lstrip (rev s)).

(** [s.strip()] *)
Definition strip (s : pystr) : pystr := rstrip (lstrip s).

(** [s.split(sep)] for a one-character separator: never an empty list. *)
Fixpoint split (sep : N) (s : pystr) : list pystr :=
  match s with
  | [] => [[]]
  | c :: s' =>
      if c =? sep then [] :: split sep s'
      else match split sep s' with
           | [] => [[c]]
           | w :: ws => (c :: w) :: ws
           end
  end.

(** Truthiness of a string: [if s] *)
Definition truthy (s : pystr) : bool :=
  match s with [] => false | _ => true end.

(** ** Ordered dictionaries *)

Section odict.
Context {K V : Type} `{EqDecision K}.

Fixpoint od_get (k : K) (d : list (K * V)) : option V :=
  match d with
  | [] => None
  | (k', v) :: d' => if decide (k' = k) then Some v else od_get k d'
  end.

(** [k in d] *)
Definition od_contains (k : K) (d : list (K * V)) : bool :=
  match od_get k d with Some _ => true | None => false end.

(** [d[k] = v]: an existing key keeps its position, a new one goes last. *)
Fixpoint od_set (k : K) (v : V) (d : list (K * V)) : list (K * V) :=
  match d with
  | [] => [(k, v)]
  | (k', v') :: d' =>
      if decide (k' = k) then (k', v) :: d' else (k', v') :: od_set k v d'
  end.

(** [d.keys()] *)
Definition od_keys (d : list (K * V)) : list K := map fst d.

End odict.

(** [if k not in d: d[k] = []] followed by [d[k].append(w)]; after the
    first statement the key is present, so the lookup does not fail. *)
Definition add_word {K} `{EqDecision K} (k : K) (w : pystr)
    (d : list (K * list pystr)) : list (K * list pystr) :=
  let d1 := if od_contains k d then d else od_set k [] d in
  match od_get k d1 with
  | Some ws => od_set k (ws ++ [w]) d1
  | None => d1
  end.

(** The words stored under [k], none when the key is absent. *)
Definition bucket {K} `{EqDecision K} (k : K) (d : list (K * list pystr))
    : list pystr :=
  default [] (od_get k d).

(** ** [os.path.dirname] (POSIX) *)

Definition slash : N := 47.

Fixpoint drop_to (c : N) (s : pystr) : pystr :=
  match s with
  | [] => []
  | c' :: s' => if c' =? c then s else drop_to c s'
  end.

Fixpoint lstrip_char (c : N) (s : pystr) : pystr :=
  match s with
  | [] => []
  | c' :: s' => if c' =? c then lstrip_char c s' else s
  end.

(** [head = p[:p.rfind('/') + 1]]; a head that is not made of slashes only
    loses its trailing slashes. *)
Definition dirname (p : pystr) : pystr :=
  let head := rev (drop_to slash (rev p)) in
  if truthy head && negb (forallb (N.eqb slash) head)
  then rev (lstrip_char slash (rev head))
  else head.

(** ** The host

    Three calls of the script reach the file system and may raise there:
    [os.makedirs] (line 9), [pdf_document.save] (line 100), and [open]
    with [json.dump] (lines 104-105).  A [host] says, for each of them and
    for the path it is given, whether the call returns ([true]) or raises
    ([false]). *)
Record host := {
  makedirs_returns : pystr -> bool;
  save_returns : pystr -> bool;
  dump_returns : pystr -> bool }.

(** [os.makedirs(name, exist_ok=True)]: the empty name is no directory and
    cannot be made, the call raises [FileNotFoundError] on every host;
    for another name the host decides. *)
Definition makedirs (h : host) (name : pystr) : bool :=
  truthy name && makedirs_returns h name.

(** ** Data model *)

Section layout.
Context {Num : Type} `{EqDecision Num}.
(** [str(x)] on a float, as the f-string of the bucket key uses it. *)
Variable show : Num -> pystr.

(** Values that [json.dump] writes. *)
#[local] Unset Elimination Schemes.
Inductive json :=
| JNull
| JBool (b : bool)
| JInt (n : Z)
| JFloat (x : Num)
| JStr (s : pystr)
| JArr (l : list json)
| JObj (l : list (pystr * json)).
#[local] Set Elimination Schemes.

(** One entry of [page.chars]: the fields the script reads. *)
Record Char := {
  char_text : pystr;
  char_size : Num;
  char_x0 : Num; char_top : Num; char_x1 : Num; char_bottom : Num }.

(** One entry of [page.images]. *)
Record Image := {
  image_x0 : Num; image_top : Num; image_x1 : Num; image_bottom : Num }.

(** Python values of the types that [json.dump] accepts.  The geometry
    records of [page.lines] are made of them: numbers, strings, flags,
    [None], lists and tuples (a point is a tuple), nested dictionaries. *)
#[local] Unset Elimination Schemes.
Inductive pyval :=
| PyNone
| PyBool (b : bool)
| PyInt (n : Z)
| PyFloat (x : Num)
| PyStr (s : pystr)
| PyTuple (l : list pyval)
| PyList (l : list pyval)
| PyDict (l : list (pystr * pyval)).
#[local] Set Elimination Schemes.

(** One entry of [page.lines]: a dictionary with [str] keys, kept as the
    library hands it over. *)
Definition Line := list (pystr * pyval).

(** One table of [page.find_tables()]. *)
Record Table := { bbox : Num * Num * Num * Num }.

(** What the extraction library answers for one page.  [extract_tables]
    and [find_tables] are separate calls and separate fields. *)
Record Page := {
  extract_text : pystr;
  extract_tables : list (list (list (option pystr)));
  images : list Image;
  lines : list Line;
  chars : list Char;
  find_tables : list Table }.

(** A page of the input: either the library answers, or a call raises. *)
Inductive page_read :=
| Readable (page : Page)
| Unreadable.

(** [fitz.Rect] and one [draw_rect] call. *)
Record Rect := { rx0 : Num; ry0 : Num; rx1 : Num; ry1 : Num }.

Record drawing := {
  d_rect : Rect;
  d_color : nat * nat * nat;
  d_width : nat }.

(** The dictionary [page_data]. *)
Record page_data := {
  pd_page_number : nat;
  pd_title : pystr;
  pd_text : pystr;
  pd_tables_count : nat;
  pd_images_count : nat;
  pd_tables : list (list (list (option pystr)));
  pd_lines_count : nat;
  pd_lines : list Line;
  pd_words_with_font_sizes : list (pystr * list pystr) }.

(** The dictionary [results]. *)
Record results := {
  pdf_path : pystr;
  pages : list page_data }.

(** ** The character loop (lines 35-61) *)

Record loop_state := {
  words_with_font_sizes : list (option Num * list pystr);
  current_word : pystr;
  current_font_size : option Num;
  text : pystr }.

(** [current_font_size is None or current_font_size == font_size] *)
Definition same_word (current_font_size : option Num) (font_size : Num)
    : bool :=
  match current_font_size with
  | None => true
  | Some s => bool_decide (s = font_size)
  end.

(** One iteration of [for char in chars].  The loop assigns the character's
    text to the variable [text], the one that held the page text. *)
Definition char_step (st : loop_state) (char : Char) : loop_state :=
  let font_size := char_size char in
  let text := char_text char in
  if same_word (current_font_size st) font_size then
    {| words_with_font_sizes := words_with_font_sizes st;
       current_word := current_word st ++ text;
       current_font_size := Some font_size;
       text := text |}
  else
    {| words_with_font_sizes :=
         add_word (current_font_size st) (strip (current_word st))
                  (words_with_font_sizes st);
       current_word := text;
       current_font_size := Some font_size;
       text := text |}.

Definition char_loop (page_text : pystr) (chars : list Char) : loop_state :=
  fold_left char_step chars
    {| words_with_font_sizes := [];
       current_word := [];
       current_font_size := None;
       text := page_text |}.

(** [if current_word: ...] after the loop *)
Definition flush (st : loop_state) : list (option Num * list pystr) :=
  if truthy (current_word st)
  then add_word (current_font_size st) (strip (current_word st))
                (words_with_font_sizes st)
  else words_with_font_sizes st.

(** The [OrderedDict] as it stands at line 62. *)
Definition group_words (chars : list Char) : list (option Num * list pystr) :=
  flush (char_loop [] chars).

(** [f"Size: {size}"] *)
Definition size_key (size : option Num) : pystr :=
  lit "Size: " ++ match size with Some x => show x | None => lit "None" end.

(** [{f"Size: {size}": words for size, words in d.items()}] *)
Definition size_keyed (d : list (option Num * list pystr))
    : list (pystr * list pystr) :=
  fold_left (fun acc '(size, words) => od_set (size_key size) words acc) d [].

(** ** One page (lines 25-97) *)

Definition rect_color : nat * nat * nat := (1, 0, 0)%nat.

Definition draw_rect (r : Rect) : drawing :=
  {| d_rect := r; d_color := rect_color; d_width := 2 |}.

Definition image_rect (image : Image) : Rect :=
  {| rx0 := image_x0 image; ry0 := image_top image;
     rx1 := image_x1 image; ry1 := image_bottom image |}.

Definition table_rect (table : Table) : Rect :=
  let '(a, b, c, d) := bbox table in
  {| rx0 := a; ry0 := b; rx1 := c; ry1 := d |}.

Definition char_rect (char : Char) : Rect :=
  {| rx0 := char_x0 char; ry0 := char_top char;
     rx1 := char_x1 char; ry1 := char_bottom char |}.

(** Lines 25-77: the record stored for page index [i].  [text0] is the
    variable [text] as assigned at line 25; the loop state carries it on,
    and line 67 reads it after the loop. *)
Definition make_page_data (i : nat) (page : Page) : page_data :=
  let text0 := extract_text page in
  let tables := extract_tables page in
  let first_line := if truthy text0 then hd [] (split 10 text0) else [] in
  let st := char_loop text0 (chars page) in
  {| pd_page_number := i + 1;
     pd_title := strip first_line;
     pd_text := text st;
     pd_tables_count := length tables;
     pd_images_count := length (images page);
     pd_tables := tables;
     pd_lines_count := length (lines page);
     pd_lines := lines page;
     pd_words_with_font_sizes := size_keyed (flush st) |}.

(** Lines 84-97: the rectangles drawn on the page, in drawing order. *)
Definition annotations (page : Page) : list drawing :=
  map (fun image => draw_rect (image_rect image)) (images page) ++
  map (fun table => draw_rect (table_rect table)) (find_tables page) ++
  map (fun char => draw_rect (char_rect char)) (chars page).

(** ** The whole run (lines 7-106) *)

(** The effects of a run.  [MakeDirs] is the call of line 9, recorded
    whether it returns or raises.  [SavePdf] and [WriteJson] are files
    written: the call of line 100, of lines 104-105, has returned. *)
Inductive event :=
| MakeDirs (name : pystr) (exist_ok : bool)
| PrintProcessing (n : nat)
| SavePdf (path : pystr) (doc : list (list drawing))
| PrintAnnotated (path : pystr)
| WriteJson (path : pystr) (r : results)
| PrintResults (path : pystr).

(** The two objects the page loop mutates: the list [results["pages"]] and
    the second handle [pdf_document], a page being the list of rectangles
    drawn on it so far. *)
Record run_state := {
  results_pages : list page_data;
  pdf_document : list (list drawing) }.

(** [pdf_page = pdf_document[i]] and the [draw_rect] calls on it; an index
    out of range raises. *)
Definition draw_on (i : nat) (ds : list drawing) (doc : list (list drawing))
    : option (list (list drawing)) :=
  match doc !! i with
  | Some pdf_page => Some (<[i := pdf_page ++ ds]> doc)
  | None => None
  end.

(** [for i, page in enumerate(pdf.pages)], from index [i] on.  The result
    is the console output and the state, [None] when an exception left the
    loop. *)
Fixpoint process_pages (i : nat) (pdf : list page_read) (st : run_state)
    : list event * option run_state :=
  match pdf with
  | [] => ([], Some st)
  | Unreadable :: _ => ([PrintProcessing (i + 1)], None)
  | Readable page :: rest =>
      let page_data := make_page_data i page in
      let pages' := results_pages st ++ [page_data] in
      match draw_on i (annotations page) (pdf_document st) with
      | None => ([PrintProcessing (i + 1)], None)
      | Some doc' =>
          let '(out, r) :=
            process_pages (S i) rest
              {| results_pages := pages'; pdf_document := doc' |} in
          (PrintProcessing (i + 1) :: out, r)
      end
  end.

(** [fitz.open(pdf_path)]: the second library opens the same file, and is
    taken to find the same number of pages in it; nothing is drawn yet. *)
Definition fitz_open (pdf : list page_read) : list (list drawing) :=
  replicate (length pdf) [].

(** [pdf_document.save(path)]: the library refuses a document without
    pages ([ValueError], cannot save with zero pages) on every host; for
    another document the host decides. *)
Definition save (h : host) (doc : list (list drawing)) (path : pystr)
    : bool :=
  match doc with
  | [] => false
  | _ :: _ => save_returns h path
  end.

(** [detect_layout(pdf_path, output_pdf_path, output_json_path)] on the
    host [h], [pdf] being the document that [pdf_path] names: the trace of
    effects, and the results and the annotated document when the run ends
    without an exception.  A call that raises ends the run there. *)
Definition detect_layout (h : host)
    (pdf_path output_pdf_path output_json_path : pystr)
    (pdf : list page_read)
    : list event * option (results * list (list drawing)) :=
  let name := dirname output_json_path in
  let start := [MakeDirs name true] in
  if makedirs h name then
    let '(out, r) :=
      process_pages 0 pdf
        {| results_pages := []; pdf_document := fitz_open pdf |} in
    match r with
    | None => (start ++ out, None)
    | Some st =>
        if save h (pdf_document st) output_pdf_path then
          let saved := [SavePdf output_pdf_path (pdf_document st);
                        PrintAnnotated output_pdf_path] in
          let results :=
            {| pdf_path := pdf_path; pages := results_pages st |} in
          if dump_returns h output_json_path then
            (start ++ out ++ saved ++
               [WriteJson output_json_path results;
                PrintResults output_json_path],
             Some (results, pdf_document st))
          else (start ++ out ++ saved, None)
        else (start ++ out, None)
    end
  else (start, None).

End layout.

Arguments JNull {Num}.
Arguments Unreadable {Num}.

(** ** The JSON value of [results] (lines 12-15, 64-77 and 105) *)

Section json_dump.
Context {Num : Type}.

Definition json_of_count (n : nat) : @json Num := JInt (Z.of_nat n).

Definition json_of_cell (cell : option pystr) : @json Num :=
  match cell with Some s => JStr s | None => JNull end.

Definition json_of_table (table : list (list (option pystr))) : @json Num :=
  JArr (map (fun row => JArr (map json_of_cell row)) table).

Definition json_of_words (e : pystr * list pystr) : pystr * @json Num :=
  (fst e, JArr (map JStr (snd e))).

(** A Python value as [json.dump] writes it: [None] as null, a list and a
    tuple alike as an array, a dictionary as an object, member by member
    in the order of the dictionary. *)
Fixpoint json_of_py (v : @pyval Num) : @json Num :=
  match v with
  | PyNone => JNull
  | PyBool b => JBool b
  | PyInt n => JInt n
  | PyFloat x => JFloat x
  | PyStr s => JStr s
  | PyTuple l => JArr (map json_of_py l)
  | PyList l => JArr (map json_of_py l)
  | PyDict l => JObj (map (fun e => (fst e, json_of_py (snd e))) l)
  end.

Definition json_of_line (line : @Line Num) : @json Num :=
  json_of_py (PyDict line).

Definition page_object (pd : @page_data Num) : list (pystr * @json Num) :=
  [(lit "page_number", json_of_count (pd_page_number pd));
   (lit "title", JStr (pd_title pd));
   (lit "text", JStr (pd_text pd));
   (lit "tables_count", json_of_count (pd_tables_count pd));
   (lit "images_count", json_of_count (pd_images_count pd));
   (lit "tables", JArr (map json_of_table (pd_tables pd)));
   (lit "lines_count", json_of_count (pd_lines_count pd));
   (lit "lines", JArr (map json_of_line (pd_lines pd)));
   (lit "words_with_font_sizes",
    JObj (map json_of_words (pd_words_with_font_sizes pd)))].

Definition json_of_results (r : @results Num) : @json Num :=
  JObj [(lit "pdf_path", JStr (pdf_path r));
        (lit "pages", JArr (map (fun pd => JObj (page_object pd)) (pages r)))].

End json_dump.

(** * Part II: the vocabulary of the specification *)

(** ** Words without outer white space *)

(** No white space at either end. *)
Definition no_outer_space (w : pystr) : Prop :=
  match w with [] => True | c :: _ => isspace c = false end /\
  match rev w with [] => True | c :: _ => isspace c = false end.

(** ** Font-size runs, readable pages, created directories *)

Section vocabulary.
Context {Num : Type} `{EqDecision Num}.
Implicit Types (c : @Char Num) (r : list (@Char Num))
  (rs : list (list (@Char Num))) (chars : list (@Char Num))
  (page : @Page Num).

(** The maximal contiguous runs of equal font size of a character
    sequence, as the specification words them. *)
Fixpoint runs chars : list (list Char) :=
  match chars with
  | [] => []
  | c :: cs =>
      match runs cs with
      | (c' :: r) :: rs =>
          if decide (char_size c = char_size c')
          then (c :: c' :: r) :: rs
          else [c] :: (c' :: r) :: rs
      | rs => [c] :: rs
      end
  end.

(** The font size of a run, and its text. *)
Definition run_size r : option Num := char_size <$> head r.
Definition run_text r : pystr := concat (map char_text r).

(** The runs that reach the dictionary: all of them, but for a last run
    whose text is empty. *)
Fixpoint emitted_runs rs : list (list Char) :=
  match rs with
  | [] => []
  | [r] => if truthy (run_text r) then [r] else []
  | r :: rs' => r :: emitted_runs rs'
  end.

(** Adjacent runs differ in font size. *)
Fixpoint sizes_alternate rs : Prop :=
  match rs with
  | r :: (r' :: _) as rs' => run_size r <> run_size r' /\ sizes_alternate rs'
  | _ => True
  end.

Definition uniform r : Prop :=
  r <> [] /\ forall c, c ∈ r -> Some (char_size c) = run_size r.

Definition readable (pg : @page_read Num) : Prop :=
  match pg with Readable _ => True | Unreadable => False end.

Definition no_elements page : Prop :=
  extract_tables page = [] /\ images page = [] /\
  lines page = [] /\ chars page = [].

End vocabulary.

(** The directories a trace asks the system to create. *)
Definition created_dirs {Num : Type} (trace : list (@event Num)) : list pystr :=
  omap (fun e => match e with MakeDirs name _ => Some name | _ => None end)
       trace.

(** ** Reading a report: a JSON parser, then the shape of section 6 of the
    specification *)

(** The members of an object as the parser keeps them in the dictionary it
    builds: a repeated name keeps its first place and its last value. *)
Definition parse_object {V : Type} (o : list (pystr * V)) : list (pystr * V) :=
  fold_left (fun d e => od_set (fst e) (snd e) d) o [].

Section json_load.
Context {Num : Type}.
Implicit Types (j : @json Num) (o : list (pystr * @json Num)).

Definition field (name : string) o : option (@json Num) :=
  od_get (lit name) (parse_object o).

Definition as_string j : option pystr :=
  match j with JStr s => Some s | _ => None end.

Definition as_count j : option nat :=
  match j with
  | JInt n => if (0 <=? n)%Z then Some (Z.to_nat n) else None
  | _ => None
  end.

Definition as_array {A} (f : @json Num -> option A) j : option (list A) :=
  match j with JArr l => mapM f l | _ => None end.

(** A table cell: a string or null. *)
Definition as_cell j : option (option pystr) :=
  match j with JStr s => Some (Some s) | JNull => Some None | _ => None end.

(** [json.load] on a JSON value: null as [None], an array as a list, an
    object as a dictionary. *)
Fixpoint py_of_json j : @pyval Num :=
  match j with
  | JNull => PyNone
  | JBool b => PyBool b
  | JInt n => PyInt n
  | JFloat x => PyFloat x
  | JStr s => PyStr s
  | JArr l => PyList (map py_of_json l)
  | JObj o =>
      PyDict (parse_object (map (fun e => (fst e, py_of_json (snd e))) o))
  end.

(** A geometry record: an object, read back as a dictionary. *)
Definition as_line j : option (@Line Num) :=
  match j with
  | JObj _ => match py_of_json j with PyDict l => Some l | _ => None end
  | _ => None
  end.

(** The word mapping: an object whose values are arrays of strings. *)
Definition as_words j : option (list (pystr * list pystr)) :=
  match j with
  | JObj o =>
      mapM (fun e => ws ← as_array as_string (snd e); Some (fst e, ws))
           (parse_object o)
  | _ => None
  end.

Definition read_page j : option (@page_data Num) :=
  match j with
  | JObj o =>
      page_number ← field "page_number" o ≫= as_count;
      title ← field "title" o ≫= as_string;
      text ← field "text" o ≫= as_string;
      tables_count ← field "tables_count" o ≫= as_count;
      tables ← field "tables" o ≫= as_array (as_array (as_array as_cell));
      images_count ← field "images_count" o ≫= as_count;
      lines_count ← field "lines_count" o ≫= as_count;
      lines ← field "lines" o ≫= as_array as_line;
      words ← field "words_with_font_sizes" o ≫= as_words;
      Some {| pd_page_number := page_number;
              pd_title := title;
              pd_text := text;
              pd_tables_count := tables_count;
              pd_images_count := images_count;
              pd_tables := tables;
              pd_lines_count := lines_count;
              pd_lines := lines;
              pd_words_with_font_sizes := words |}
  | _ => None
  end.

Definition read_report j : option (@results Num) :=
  match j with
  | JObj o =>
      path ← field "pdf_path" o ≫= as_string;
      pages ← field "pages" o ≫= as_array read_page;
      Some {| pdf_path := path; pages := pages |}
  | _ => None
  end.

End json_load.

(** ** Tuples and lists

    JSON has arrays only: what is read back holds a list where the program
    held a tuple. *)

Section tuples.
Context {Num : Type}.

(** The value with a list in the place of every tuple. *)
Fixpoint lists_for_tuples (v : @pyval Num) : @pyval Num :=
  match v with
  | PyTuple l => PyList (map lists_for_tuples l)
  | PyList l => PyList (map lists_for_tuples l)
  | PyDict l => PyDict (map (fun e => (fst e, lists_for_tuples (snd e))) l)
  | _ => v
  end.

(** No tuple anywhere in the value. *)
Fixpoint tuple_free (v : @pyval Num) : bool :=
  match v with
  | PyTuple _ => false
  | PyList l => forallb tuple_free l
  | PyDict l => forallb (fun e => tuple_free (snd e)) l
  | _ => true
  end.

(** A Python dictionary holds a key once: no dictionary of the value lists
    a key twice. *)
Fixpoint keys_once (v : @pyval Num) : bool :=
  match v with
  | PyTuple l => forallb keys_once l
  | PyList l => forallb keys_once l
  | PyDict l =>
      bool_decide (NoDup (map fst l)) &&
      forallb (fun e => keys_once (snd e)) l
  | _ => true
  end.

Definition untupled_line (line : @Line Num) : @Line Num :=
  map (fun e => (fst e, lists_for_tuples (snd e))) line.

(** A page record, and the results, with lists for the tuples of the line
    records; nothing else differs. *)
Definition untupled_page (pd : @page_data Num) : @page_data Num :=
  {| pd_page_number := pd_page_number pd;
     pd_title := pd_title pd;
     pd_text := pd_text pd;
     pd_tables_count := pd_tables_count pd;
     pd_images_count := pd_images_count pd;
     pd_tables := pd_tables pd;
     pd_lines_count := pd_lines_count pd;
     pd_lines := map untupled_line (pd_lines pd);
     pd_words_with_font_sizes := pd_words_with_font_sizes pd |}.

Definition untupled (r : @results Num) : @results Num :=
  {| pdf_path := pdf_path r; pages := map untupled_page (pages r) |}.

End tuples.

(** ** Concrete inputs

    A number type for examples: floats with a whole value, which Python
    writes as the decimal digits followed by [.0]. *)

Fixpoint digits (fuel : nat) (n : N) (acc : pystr) : pystr :=
  match fuel with
  | O => acc
  | S fuel' =>
      let acc' := (48 + n mod 10) :: acc in
      if n <? 10 then acc' else digits fuel' (n / 10) acc'
  end.

Definition show_whole (z : Z) : pystr :=
  (if (z <? 0)%Z then [45] else []) ++
  digits (S (N.to_nat (N.log2 (Z.abs_N z)))) (Z.abs_N z) [] ++ lit ".0".

Definition mk_char (t : string) (size : Z) : Char :=
  {| char_text := lit t; char_size := size;
     char_x0 := 0%Z; char_top := 0%Z; char_x1 := 1%Z; char_bottom := 1%Z |}.

(** A page that reads "Hi", with its two characters. *)
Definition hi_page : @Page Z :=
  {| extract_text := lit "Hi";
     extract_tables := [];
     images := [];
     lines := [];
     chars := [mk_char "H" 12; mk_char "i" 12];
     find_tables := [] |}.

(** A page whose only character is a space: no text is extracted from it. *)
Definition space_page : @Page Z :=
  {| extract_text := [];
     extract_tables := [];
     images := [];
     lines := [];
     chars := [mk_char " " 12];
     find_tables := [] |}.

(** A page with the characters " ", "a" (size 12), " " (size 10) and "b "
    (size 12): its words are "a", the empty word and "b". *)
Definition spaced_page : @Page Z :=
  {| extract_text := lit "a b";
     extract_tables := [];
     images := [];
     lines := [];
     chars := [mk_char " " 12; mk_char "a" 12; mk_char " " 10; mk_char "b " 12];
     find_tables := [] |}.

(** A page without anything on it. *)
Definition empty_page : @Page Z :=
  {| extract_text := [];
     extract_tables := [];
     images := [];
     lines := [];
     chars := [];
     find_tables := [] |}.

(** A page with an image, a table that only [find_tables] sees, and two
    characters. *)
Definition busy_page : @Page Z :=
  {| extract_text := lit "Hi";
     extract_tables := [];
     images := [{| image_x0 := 0; image_top := 0;
                   image_x1 := 5; image_bottom := 5 |}%Z];
     lines := [];
     chars := [mk_char "H" 12; mk_char "i" 12];
     find_tables := [{| bbox := (1, 1, 4, 4)%Z |}] |}.

(** A page with one ruling: a line record whose end points are tuples. *)
Definition ruled_page : @Page Z :=
  {| extract_text := [];
     extract_tables := [];
     images := [];
     lines := [[(lit "x0", PyFloat 0%Z); (lit "x1", PyFloat 9%Z);
                (lit "object_type", PyStr (lit "line"));
                (lit "pts", PyList [PyTuple [PyFloat 0%Z; PyFloat 5%Z];
                                    PyTuple [PyFloat 9%Z; PyFloat 5%Z]])]];
     chars := [];
     find_tables := [] |}.

Definition two_pages : list (@page_read Z) :=
  [Readable busy_page; Readable empty_page].

Definition broken_pdf : list (@page_read Z) :=
  [Readable busy_page; Unreadable; Readable empty_page].

(** A document of one page, and what a run on [two_pages] holds at its
    end: the report and the annotated document. *)
Definition one_page : list (@page_read Z) := [Readable busy_page].

(** The document whose one page is [ruled_page], and its report. *)
Definition ruled_pdf : list (@page_read Z) := [Readable ruled_page].

Definition ruled_report : @results Z :=
  {| pdf_path := lit "Fraud_Report_2022.pdf";
     pages := [make_page_data show_whole 0 ruled_page] |}.

Definition two_pages_report (pdf_path : pystr) : @results Z :=
  {| pdf_path := pdf_path;
     pages := [make_page_data show_whole 0 busy_page;
               make_page_data show_whole 1 empty_page] |}.

Definition two_pages_document : list (list (@drawing Z)) :=
  [annotations busy_page; annotations empty_page].

(** The paths of the script's entry point. *)
Definition main_pdf_path : pystr := lit "Fraud_Report_2022.pdf".
Definition main_output_pdf_path : pystr := lit "output/annotated_file.pdf".
Definition main_output_json_path : pystr := lit "output/layout_results1.json".

(** The entry point (lines 108-115), on the document that the input path
    names. *)
Definition main {Num : Type} `{EqDecision Num} (show : Num -> pystr)
    (h : host) (pdf : list (@page_read Num))
    : list (@event Num) * option (@results Num * list (list (@drawing Num))) :=
  detect_layout show h main_pdf_path main_output_pdf_path
    main_output_json_path pdf.

(** A host on which the three calls return, and hosts with a directory
    that cannot be written to: the document is not saved, or it is saved
    and the report cannot be opened. *)
Definition granting : host :=
  {| makedirs_returns := fun _ => true;
     save_returns := fun _ => true;
     dump_returns := fun _ => true |}.

Definition no_save : host :=
  {| makedirs_returns := fun _ => true;
     save_returns := fun _ => false;
     dump_returns := fun _ => true |}.

Definition no_dump : host :=
  {| makedirs_returns := fun _ => true;
     save_returns := fun _ => true;
     dump_returns := fun _ => false |}.

(** ** Files written, keys in order of first use *)

(** The paths a trace writes a file to, in the order of writing. *)
Definition written_files {Num : Type} (trace : list (@event Num))
    : list pystr :=
  omap (fun e => match e with
                 | SavePdf path _ => Some path
                 | WriteJson path _ => Some path
                 | _ => None
                 end) trace.

(** The elements of a list in the order of their first occurrence. *)
Fixpoint first_seen {A} `{EqDecision A} (l : list A) : list A :=
  match l with
  | [] => []
  | x :: l' => x :: filter (fun y => y <> x) (first_seen l')
  end.

(** ** Two sentences of the specification, word for word *)

(** C2 as stated, on the characters' texts: under each font size, the words
    are the texts of the maximal runs of that size, in order, so that the
    characters of the page are all there, once each. *)
Definition words_partition_chars (chars : list (@Char Z)) : Prop :=
  forall s : Z,
    bucket (Some s) (group_words chars) =
      map run_text (filter (fun r => run_size r = Some s) (runs chars)).

(** C6 as stated, second half: the parent directory of the PDF output is
    not among the directories the run creates. *)
Definition pdf_parent_never_created {Num : Type} `{EqDecision Num}
    (show : Num -> pystr) (h : host)
    (pdf_path output_pdf_path output_json_path : pystr)
    (pdf : list (@page_read Num)) : Prop :=
  dirname output_pdf_path ∉
    created_dirs
      (detect_layout show h pdf_path output_pdf_path output_json_path pdf).1.

(** C8 as stated, for a document without pages: the run raises no fault. *)
Definition no_fault_without_pages {Num : Type} `{EqDecision Num}
    (show : Num -> pystr) (h : host)
    (pdf_path output_pdf_path output_json_path : pystr) : Prop :=
  exists r doc,
    (detect_layout show h pdf_path output_pdf_path output_json_path []).2 =
      Some (r, doc).

(** C9 as stated: what is read back from a written report is the structure
    the program held. *)
Definition read_back_unchanged {Num : Type} `{EqDecision Num}
    (show : Num -> pystr) (h : host)
    (pdf_path output_pdf_path output_json_path : pystr)
    (pdf : list (@page_read Num)) : Prop :=
  forall path r,
    WriteJson path r ∈
      (detect_layout show h pdf_path output_pdf_path output_json_path pdf).1 ->
    read_report (json_of_results r) = Some r.

(** ** Functions used in the proofs *)

Section proof_functions.
Context {K : Type} `{EqDecision K}.
Implicit Types (k : K) (w : pystr) (d : list (K * list pystr)).

(** Adding words one after the other. *)
Definition add_words (l : list (K * pystr)) d : list (K * list pystr) :=
  fold_left (fun d '(k, w) => add_word k w d) l d.

Definition words_under k (l : list (K * pystr)) : list pystr :=
  map snd (filter (fun e => fst e = k) l).

End proof_functions.

Section loop_functions.
Context {Num : Type} `{EqDecision Num}.
Variable show : Num -> pystr.
Implicit Types (c : @Char Num) (r : list (@Char Num))
  (rs : list (list (@Char Num))) (chars : list (@Char Num))
  (ps : list (@Page Num)).

(** The keyed words the loop and the final flush hand to the dictionary,
    unstripped, when the loop is entered with [cfs] and [cw]. *)
Fixpoint emitted (cfs : option Num) (cw : pystr) chars
    : list (option Num * pystr) :=
  match chars with
  | [] => if truthy cw then [(cfs, cw)] else []
  | c :: cs =>
      if same_word cfs (char_size c)
      then emitted (Some (char_size c)) (cw ++ char_text c) cs
      else (cfs, cw) :: emitted (Some (char_size c)) (char_text c) cs
  end.

Definition stripped (l : list (option Num * pystr))
    : list (option Num * pystr) :=
  map (fun e => (fst e, strip (snd e))) l.

Definition entry r : option Num * pystr := (run_size r, run_text r).

(** Put a keyed word in front of a list of keyed words, joining it with
    the first one when the keys agree. *)
Definition merge (e : option Num * pystr) (l : list (option Num * pystr))
    : list (option Num * pystr) :=
  match l with
  | (k', w') :: l' =>
      if decide (fst e = k') then (fst e, snd e ++ w') :: l' else e :: l
  | [] => [e]
  end.

(** Drop a last keyed word that is empty. *)
Fixpoint close (l : list (option Num * pystr)) : list (option Num * pystr) :=
  match l with
  | [] => []
  | [e] => if truthy (snd e) then [e] else []
  | e :: l' => e :: close l'
  end.

(** The records of the pages [ps], the first one at page index [i]. *)
Fixpoint page_records (i : nat) ps : list page_data :=
  match ps with
  | [] => []
  | page :: ps' => make_page_data show i page :: page_records (S i) ps'
  end.

Definition is_print (e : @event Num) : Prop :=
  match e with PrintProcessing _ => True | _ => False end.

End loop_functions.

(** * Part III: auxiliary lemmas *)

(** ** Stripping *)

Lemma lstrip_head (s : pystr) :
  match lstrip s with [] => True | c :: _ => isspace c = false end.
Proof.
  induction s as [|c s IH]; simpl; [done|].
  destruct (isspace c) eqn:E; [exact IH | exact E].
Qed.

Lemma lstrip_suffix (s : pystr) : exists p, s = p ++ lstrip s.
Proof.
  induction s as [|c s [p Hp]]; simpl.
  - by exists [].
  - destruct (isspace c).
    + exists (c :: p). simpl. by rewrite <- Hp.
    + by exists [].
Qed.

Lemma lstrip_fixed (s : pystr) :
  match s with [] => True | c :: _ => isspace c = false end -> lstrip s = s.
Proof. destruct s as [|c s]; simpl; [done|]. by intros ->. Qed.

Lemma rstrip_prefix (s : pystr) : exists q, s = rstrip s ++ q.
Proof.
  unfold rstrip. destruct (lstrip_suffix (rev s)) as [p Hp].
  exists (rev p). rewrite <- rev_app_distr, <- Hp. by rewrite rev_involutive.
Qed.

Lemma strip_no_outer_space (s : pystr) : no_outer_space (strip s).
Proof.
  unfold no_outer_space, strip. split.
  - pose proof (lstrip_head s) as Hh.
    destruct (rstrip_prefix (lstrip s)) as [q Hq].
    destruct (rstrip (lstrip s)) as [|c t]; [done|].
    rewrite Hq in Hh. exact Hh.
  - unfold rstrip. rewrite rev_involutive. apply lstrip_head.
Qed.

Lemma strip_fixed (w : pystr) : no_outer_space w -> strip w = w.
Proof.
  intros [Hl Hr]. unfold strip, rstrip.
  rewrite (lstrip_fixed w Hl), (lstrip_fixed (rev w) Hr).
  apply rev_involutive.
Qed.

Lemma lstrip_all_space (s : pystr) :
  forallb isspace s = true -> lstrip s = [].
Proof.
  induction s as [|c s IH]; simpl; [done|].
  intros [Hc Hs]%andb_prop. rewrite Hc. by apply IH.
Qed.

Lemma strip_all_space (s : pystr) :
  forallb isspace s = true -> strip s = [].
Proof. intros Hs. unfold strip. by rewrite (lstrip_all_space s Hs). Qed.

(** ** Ordered dictionaries *)

Section odict_facts.
Context {K V : Type} `{EqDecision K}.
Implicit Types (k : K) (v : V) (d : list (K * V)).

Lemma od_get_set k k' v d :
  od_get k' (od_set k v d) = if decide (k = k') then Some v else od_get k' d.
Proof.
  induction d as [|[k0 v0] d IH]; simpl.
  - by destruct (decide (k = k')).
  - destruct (decide (k0 = k)) as [->|Hne]; simpl.
    + by destruct (decide (k = k')).
    + rewrite IH. destruct (decide (k0 = k')) as [->|]; [|done].
      by rewrite decide_False.
Qed.

Lemma od_set_elem k v k' v' d :
  (k', v') ∈ od_set k v d -> (k' = k /\ v' = v) \/ (k', v') ∈ d.
Proof.
  induction d as [|[k0 v0] d IH]; simpl.
  - intros [= -> ->]%list_elem_of_singleton. by left.
  - destruct (decide (k0 = k)) as [->|Hne].
    + intros [[= -> ->]|?]%elem_of_cons; [by left|].
      right. by apply elem_of_cons; right.
    + intros [[= -> ->]|Hin]%elem_of_cons.
      * right. apply elem_of_cons. by left.
      * destruct (IH Hin) as [?|?]; [by left|].
        right. apply elem_of_cons. by right.
Qed.

Lemma od_get_elem k v d : od_get k d = Some v -> (k, v) ∈ d.
Proof.
  induction d as [|[k0 v0] d IH]; simpl; [done|].
  destruct (decide (k0 = k)) as [->|].
  - intros [= ->]. apply elem_of_cons. by left.
  - intros ?. apply elem_of_cons. right. by apply IH.
Qed.

Lemma od_keys_set k v d :
  od_keys (od_set k v d) =
    if od_contains k d then od_keys d else od_keys d ++ [k].
Proof.
  unfold od_contains, od_keys.
  induction d as [|[k0 v0] d IH]; simpl; [done|].
  destruct (decide (k0 = k)) as [->|]; simpl; [done|].
  rewrite IH. by destruct (od_get k d).
Qed.

Lemma od_get_None_keys k d : od_get k d = None <-> k ∉ od_keys d.
Proof.
  unfold od_keys. induction d as [|[k0 v0] d IH]; simpl.
  - split; [intros _; apply not_elem_of_nil | done].
  - rewrite not_elem_of_cons. destruct (decide (k0 = k)) as [->|Hne].
    + split; [done | intros [? _]; done].
    + rewrite IH. split; [intros ?; split; [congruence | done] | by intros [_ ?]].
Qed.
Lemma od_set_fresh k v d : k ∉ od_keys d -> od_set k v d = d ++ [(k, v)].
Proof.
  unfold od_keys. induction d as [|[k0 v0] d IH]; simpl; [done|].
  intros [Hne Hd]%not_elem_of_cons. rewrite decide_False by done.
  by rewrite IH.
Qed.

Lemma od_set_nodup k v d : NoDup (od_keys d) -> NoDup (od_keys (od_set k v d)).
Proof.
  intros Hd. rewrite od_keys_set. unfold od_contains.
  destruct (od_get k d) eqn:E; [done|].
  apply od_get_None_keys in E.
  apply NoDup_app. split; [done|]. split.
  - by intros x Hx ->%list_elem_of_singleton.
  - apply NoDup_singleton.
Qed.

(** With distinct keys, an entry of the dictionary is what the lookup of
    its key gives. *)
Lemma od_get_of_elem k v d :
  NoDup (od_keys d) -> (k, v) ∈ d -> od_get k d = Some v.
Proof.
  unfold od_keys. induction d as [|[k0 v0] d IH]; simpl.
  - by intros _ ?%elem_of_nil.
  - intros [Hk0 Hd]%NoDup_cons [[= -> ->]|Hin]%elem_of_cons.
    + by rewrite decide_True.
    + rewrite decide_False; [by apply IH|].
      intros ->. apply Hk0. by apply (list_elem_of_fmap_2 fst) in Hin.
Qed.

End odict_facts.

(** ** Appending a word to a bucket *)

Section add_word_facts.
Context {K : Type} `{EqDecision K}.
Implicit Types (k : K) (w : pystr) (d : list (K * list pystr)).

Lemma od_get_add_word k k' w d :
  od_get k' (add_word k w d) =
    if decide (k = k') then Some (bucket k d ++ [w]) else od_get k' d.
Proof.
  unfold add_word, bucket, od_contains.
  destruct (od_get k d) as [ws|] eqn:E; simpl.
  - rewrite E, od_get_set. by destruct (decide (k = k')).
  - rewrite od_get_set, decide_True by done.
    rewrite !od_get_set. destruct (decide (k = k')); [done|].
    done.
Qed.

Lemma add_word_elem k w k' ws' w' d :
  (k', ws') ∈ add_word k w d -> w' ∈ ws' ->
  w' = w \/ exists ws, (k', ws) ∈ d /\ w' ∈ ws.
Proof.
  unfold add_word, od_contains.
  destruct (od_get k d) as [ws|] eqn:E; simpl.
  - rewrite E. intros [[-> ->]|Hin]%od_set_elem Hw.
    + apply elem_of_app in Hw as [Hw|Hw%list_elem_of_singleton]; [|by left].
      right. exists ws. split; [by apply od_get_elem | done].
    + right. by exists ws'.
  - rewrite od_get_set, decide_True by done.
    intros [[-> ->]|[[-> ->]|Hin]%od_set_elem]%od_set_elem Hw.
    + apply list_elem_of_singleton in Hw. by left.
    + by apply elem_of_nil in Hw.
    + right. by exists ws'.
Qed.

Lemma words_under_cons k e l :
  words_under k (e :: l) =
    if decide (fst e = k) then snd e :: words_under k l else words_under k l.
Proof.
  unfold words_under. rewrite filter_cons.
  by destruct (decide (fst e = k)).
Qed.

Lemma od_get_add_words k l d :
  od_get k (add_words l d) =
    match words_under k l with
    | [] => od_get k d
    | ws => Some (bucket k d ++ ws)
    end.
Proof.
  revert d. induction l as [|[k0 w0] l IH]; intros d; simpl; [done|].
  fold (add_words l (add_word k0 w0 d)).
  rewrite IH, words_under_cons. simpl. unfold bucket at 1.
  rewrite od_get_add_word.
  destruct (decide (k0 = k)) as [->|]; simpl.
  - destruct (words_under k l); [done|]. by rewrite <- app_assoc.
  - done.
Qed.

Lemma add_words_elem l d k ws w :
  (k, ws) ∈ add_words l d -> w ∈ ws ->
  w ∈ map snd l \/ exists ws0, (k, ws0) ∈ d /\ w ∈ ws0.
Proof.
  revert d. induction l as [|[k0 w0] l IH]; intros d; simpl.
  - intros ? ?. right. by exists ws.
  - intros Hin Hw. destruct (IH _ Hin Hw) as [?|(ws0 & Hin0 & Hw0)].
    + left. apply elem_of_cons. by right.
    + destruct (add_word_elem _ _ _ _ _ _ Hin0 Hw0) as [->|?]; [|by right].
      left. apply elem_of_cons. by left.
Qed.

Lemma add_word_nodup k w d :
  NoDup (od_keys d) -> NoDup (od_keys (add_word k w d)).
Proof.
  intros Hd. unfold add_word.
  set (d1 := if od_contains k d then d else od_set k [] d).
  assert (Hd1 : NoDup (od_keys d1)).
  { unfold d1. destruct (od_contains k d); [done|]. by apply od_set_nodup. }
  destruct (od_get k d1); [by apply od_set_nodup | done].
Qed.

Lemma add_words_nodup (l : list (K * pystr)) d :
  NoDup (od_keys d) -> NoDup (od_keys (add_words l d)).
Proof.
  revert d. induction l as [|[k w] l IH]; intros d Hd; simpl; [done|].
  apply IH. by apply add_word_nodup.
Qed.

End add_word_facts.

(** ** Font-size runs *)

Section runs.
Context {Num : Type} `{EqDecision Num}.
Implicit Types (c : @Char Num) (r : list (@Char Num))
  (rs : list (list (@Char Num))) (chars : list (@Char Num)).

Lemma runs_concat chars : concat (runs chars) = chars.
Proof.
  induction chars as [|c cs IH]; simpl; [done|].
  destruct (runs cs) as [|[|c' r] rs]; simpl in *.
  - by rewrite <- IH.
  - by rewrite <- IH.
  - destruct (decide (char_size c = char_size c')); simpl; by rewrite <- IH.
Qed.

Lemma runs_uniform chars : Forall uniform (runs chars).
Proof.
  induction chars as [|c cs IH]; simpl; [constructor|].
  assert (Hc : uniform [c]).
  { split; [done|]. by intros c0 ->%list_elem_of_singleton. }
  destruct (runs cs) as [|[|c' r] rs].
  - by constructor.
  - by constructor.
  - destruct (decide (char_size c = char_size c')) as [Heq|].
    + inversion IH as [|? ? [_ Hr] Hrs]; subst. constructor; [|done].
      split; [done|]. intros c0 [->|Hin]%elem_of_cons; [done|].
      rewrite (Hr c0 Hin). unfold run_size. simpl. by rewrite Heq.
    + by constructor.
Qed.

Lemma runs_alternate chars : sizes_alternate (runs chars).
Proof.
  induction chars as [|c cs IH]; simpl; [done|].
  pose proof (runs_uniform cs) as Hu.
  destruct (runs cs) as [|[|c' r] rs].
  - done.
  - inversion Hu as [|? ? [Hne _] _]; by subst.
  - destruct (decide (char_size c = char_size c')) as [Heq|Hne].
    + destruct rs as [|r' rs]; [done|].
      destruct IH as [Hd Hrest]. split; [|done].
      unfold run_size in *. simpl in *. congruence.
    + split; [|done]. unfold run_size. simpl. congruence.
Qed.

(** *** The loop, word by word *)

Lemma flush_char_loop chars (st : loop_state) :
  flush (fold_left char_step chars st) =
    add_words
      (stripped (emitted (current_font_size st) (current_word st) chars))
      (words_with_font_sizes st).
Proof.
  revert st. induction chars as [|c cs IH]; intros st; simpl.
  - unfold flush. by destruct (truthy (current_word st)).
  - rewrite IH. unfold char_step.
    by destruct (same_word (current_font_size st) (char_size c)).
Qed.

Lemma group_words_emitted chars :
  group_words chars = add_words (stripped (emitted None [] chars)) [].
Proof. unfold group_words, char_loop. by rewrite flush_char_loop. Qed.

Lemma flush_text_irrelevant (t : pystr) chars :
  flush (char_loop t chars) = group_words chars.
Proof. unfold group_words, char_loop. by rewrite !flush_char_loop. Qed.

(** *** From the loop to the runs *)

Lemma entries_runs_cons c cs :
  map entry (runs (c :: cs)) =
    merge (Some (char_size c), char_text c) (map entry (runs cs)).
Proof.
  simpl. destruct (runs cs) as [|[|c' r] rs]; simpl.
  - unfold entry, run_text. simpl. by rewrite app_nil_r.
  - unfold entry at 1, run_text at 1. simpl. by rewrite app_nil_r.
  - destruct (decide (char_size c = char_size c')) as [Heq|Hne]; simpl.
    + rewrite decide_True by (unfold run_size; simpl; by rewrite Heq). done.
    + rewrite decide_False by (unfold run_size; simpl; congruence).
      unfold entry at 1, run_text at 1. simpl. by rewrite app_nil_r.
Qed.

Lemma merge_merge (k : option Num) w1 w2 l :
  merge (k, w1) (merge (k, w2) l) = merge (k, w1 ++ w2) l.
Proof.
  destruct l as [|[k' w'] l]; simpl.
  - by rewrite decide_True.
  - destruct (decide (k = k')) as [->|Hne]; simpl.
    + rewrite decide_True by done. by rewrite app_assoc.
    + by rewrite decide_True.
Qed.

Lemma merge_other (k k' : option Num) w w' l :
  k <> k' -> merge (k, w) (merge (k', w') l) = (k, w) :: merge (k', w') l.
Proof.
  intros Hne. destruct l as [|[k0 w0] l]; simpl.
  - by rewrite decide_False.
  - destruct (decide (k' = k0)); simpl; by rewrite decide_False.
Qed.

Lemma close_cons_merge (e e' : option Num * pystr) l :
  close (e :: merge e' l) = e :: close (merge e' l).
Proof.
  destruct l as [|[k0 w0] l]; simpl; [done|].
  by destruct (decide (fst e' = k0)).
Qed.

Lemma emitted_merge s cw chars :
  emitted (Some s) cw chars =
    close (merge (Some s, cw) (map entry (runs chars))).
Proof.
  revert s cw. induction chars as [|c cs IH]; intros s cw.
  - done.
  - rewrite entries_runs_cons. cbn [emitted same_word].
    rewrite !IH. destruct (bool_decide_reflect (s = char_size c)) as [->|Hne].
    + by rewrite merge_merge.
    + rewrite merge_other by congruence. by rewrite close_cons_merge.
Qed.

Lemma emitted_close chars :
  emitted None [] chars = close (map entry (runs chars)).
Proof.
  destruct chars as [|c cs]; [done|].
  rewrite entries_runs_cons. cbn [emitted same_word app].
  apply emitted_merge.
Qed.

Lemma close_entries rs : close (map entry rs) = map entry (emitted_runs rs).
Proof.
  induction rs as [|r [|r' rs] IH]; [done| |].
  - simpl. by destruct (truthy (run_text r)).
  - change (entry r :: close (map entry (r' :: rs)) =
            entry r :: map entry (emitted_runs (r' :: rs))).
    by rewrite IH.
Qed.

Lemma words_under_entries (k : option Num) rs :
  words_under k (stripped (map entry rs)) =
    map (fun r => strip (run_text r)) (filter (fun r => run_size r = k) rs).
Proof.
  induction rs as [|r rs IH]; [done|].
  cbn [map stripped]. rewrite words_under_cons, filter_cons. simpl.
  fold (stripped (map entry rs)). rewrite IH.
  by destruct (decide (run_size r = k)).
Qed.

(** The bucket of every key, in terms of the runs. *)
Lemma od_get_group_words (k : option Num) chars :
  od_get k (group_words chars) =
    match filter (fun r => run_size r = k) (emitted_runs (runs chars)) with
    | [] => None
    | rs => Some (map (fun r => strip (run_text r)) rs)
    end.
Proof.
  rewrite group_words_emitted, od_get_add_words, emitted_close, close_entries.
  rewrite words_under_entries.
  by destruct (filter _ _).
Qed.

Lemma emitted_runs_elem r rs :
  r ∈ rs -> truthy (run_text r) = true -> r ∈ emitted_runs rs.
Proof.
  intros Hin Ht. induction rs as [|r0 [|r1 rs] IH].
  - by apply elem_of_nil in Hin.
  - apply list_elem_of_singleton in Hin as ->. simpl. rewrite Ht.
    by apply list_elem_of_singleton.
  - apply elem_of_cons in Hin as [->|Hin].
    + apply elem_of_cons. by left.
    + change (r ∈ r0 :: emitted_runs (r1 :: rs)).
      apply elem_of_cons. right. by apply IH.
Qed.

Lemma emitted_runs_subset r rs : r ∈ emitted_runs rs -> r ∈ rs.
Proof.
  induction rs as [|r0 [|r1 rs] IH]; [done| |].
  - simpl. by destruct (truthy (run_text r0)); [|intros ?%elem_of_nil].
  - change (r ∈ r0 :: emitted_runs (r1 :: rs) -> r ∈ r0 :: r1 :: rs).
    intros [->|Hin]%elem_of_cons; apply elem_of_cons; [by left|].
    right. by apply IH.
Qed.

(** Every key of the [OrderedDict] is a font size, never [None]. *)
Lemma group_words_keys chars (k : option Num) :
  k ∈ od_keys (group_words chars) -> exists s, k = Some s.
Proof.
  destruct k as [s|]; [by exists s|]. intros Hin. exfalso.
  apply (proj1 (od_get_None_keys None (group_words chars))); [|done].
  rewrite od_get_group_words.
  destruct (filter _ _) as [|r rs] eqn:E; [done|].
  assert (Hr : r ∈ r :: rs) by (apply elem_of_cons; by left).
  rewrite <- E in Hr.
  apply list_elem_of_filter in Hr as [Hnone Hr%emitted_runs_subset].
  pose proof (runs_uniform chars) as Hu. rewrite Forall_forall in Hu.
  destruct (Hu r Hr) as [Hne _]. by destruct r.
Qed.

Lemma group_words_nodup (chars : list (@Char Num)) :
  NoDup (od_keys (group_words chars)).
Proof. rewrite group_words_emitted. apply add_words_nodup. constructor. Qed.

(** The words of an entry are the stripped texts of the runs of its size
    that reach the dictionary, one word for each run, in their order. *)
Lemma group_words_elem (chars : list (@Char Num)) k ws :
  (k, ws) ∈ group_words chars ->
  ws = map (fun r => strip (run_text r))
           (filter (fun r => run_size r = k) (emitted_runs (runs chars))).
Proof.
  intros Hin. apply od_get_of_elem in Hin; [|apply group_words_nodup].
  rewrite od_get_group_words in Hin.
  destruct (filter _ _) as [|r rs]; [done|]. by injection Hin as <-.
Qed.

Lemma group_words_stripped (chars : list (@Char Num)) k ws w :
  (k, ws) ∈ group_words chars -> w ∈ ws -> no_outer_space w.
Proof.
  rewrite group_words_emitted. intros Hin Hw.
  destruct (add_words_elem _ _ _ _ _ Hin Hw) as [Hs|(ws0 & Hnil & _)].
  - unfold stripped in Hs. rewrite map_map in Hs.
    apply list_elem_of_fmap in Hs as (e & -> & _). apply strip_no_outer_space.
  - by apply elem_of_nil in Hnil.
Qed.

(** A run of white space only, with at least one character of text,
    leaves the empty word in the bucket of its size. *)
Lemma blank_run_emitted (chars : list (@Char Num)) r :
  r ∈ runs chars ->
  truthy (run_text r) = true ->
  forallb isspace (run_text r) = true ->
  [] ∈ bucket (run_size r) (group_words chars).
Proof.
  intros Hin Ht Hsp. unfold bucket. rewrite od_get_group_words.
  pose proof (emitted_runs_elem r _ Hin Ht) as Hem.
  assert (Hf : r ∈ filter (fun r0 => run_size r0 = run_size r)
                      (emitted_runs (runs chars))).
  { apply list_elem_of_filter. by split. }
  destruct (filter _ _) as [|r1 rs1] eqn:E; [by apply elem_of_nil in Hf|].
  simpl default.
  change ([] ∈ (fun r0 => strip (run_text r0)) <$> (r1 :: rs1)).
  apply list_elem_of_fmap. exists r. split; [|done].
  by rewrite (strip_all_space _ Hsp).
Qed.

Lemma char_loop_text (t : pystr) (chars : list (@Char Num)) :
  text (char_loop t chars) =
    match last chars with Some c => char_text c | None => t end.
Proof.
  unfold char_loop.
  induction chars as [|c cs IH] using rev_ind; [done|].
  rewrite fold_left_app, last_snoc. simpl. unfold char_step.
  by destruct (same_word _ _).
Qed.

End runs.

(** ** The formatted keys *)

Section key_renaming.
Context {Num : Type} `{EqDecision Num}.
Variable show : Num -> pystr.

Lemma size_keyed_elem (d : list (option Num * list pystr)) key ws :
  (key, ws) ∈ size_keyed show d ->
  exists k, key = size_key show k /\ (k, ws) ∈ d.
Proof.
  unfold size_keyed.
  assert (Hgen : forall acc,
    (key, ws) ∈ fold_left
      (fun acc '(size, words) => od_set (size_key show size) words acc) d acc ->
    (exists k, key = size_key show k /\ (k, ws) ∈ d) \/ (key, ws) ∈ acc).
  { induction d as [|[k0 ws0] d IH]; intros acc; simpl; [by right|].
    intros Hin. destruct (IH _ Hin) as [(k & Hkey & Hk)|Hacc].
    - left. exists k. split; [done|]. apply elem_of_cons. by right.
    - apply od_set_elem in Hacc as [[-> ->]|?]; [|by right].
      left. exists k0. split; [done|]. apply elem_of_cons. by left. }
  intros Hin. destruct (Hgen [] Hin) as [?|Hnil]; [done|].
  by apply elem_of_nil in Hnil.
Qed.

Lemma size_keyed_nodup (d : list (option Num * list pystr)) :
  NoDup (od_keys (size_keyed show d)).
Proof.
  unfold size_keyed.
  assert (Hgen : forall acc : list (pystr * list pystr),
    NoDup (od_keys acc) ->
    NoDup (od_keys (fold_left
      (fun acc '(size, words) => od_set (size_key show size) words acc)
      d acc))).
  { induction d as [|[k ws] d IH]; intros acc Hacc; simpl; [done|].
    apply IH. by apply od_set_nodup. }
  apply Hgen. constructor.
Qed.

Lemma od_keys_elem {K V} (k : K) (d : list (K * V)) :
  k ∈ od_keys d <-> exists v, (k, v) ∈ d.
Proof.
  unfold od_keys. split.
  - intros ([k0 v] & -> & Hin)%list_elem_of_fmap. by exists v.
  - intros [v Hin]. by apply (list_elem_of_fmap_2 fst) in Hin.
Qed.

(** The keys of the mapping in the page record read ["Size: "] followed by
    a formatted font size. *)
Lemma page_word_keys (i : nat) (page : @Page Num) key :
  key ∈ od_keys (pd_words_with_font_sizes (make_page_data show i page)) ->
  exists s, key = lit "Size: " ++ show s.
Proof.
  simpl. rewrite flush_text_irrelevant.
  intros [ws Hin]%od_keys_elem.
  apply size_keyed_elem in Hin as (k & -> & Hk).
  destruct (group_words_keys (chars page) k) as [s ->].
  - apply od_keys_elem. by exists ws.
  - by exists s.
Qed.

(** When the sizes that occur format differently, the mapping of the page
    record is the [OrderedDict] with its keys formatted. *)
Lemma size_keyed_renames (d : list (option Num * list pystr)) :
  NoDup (od_keys d) ->
  (forall k k', k ∈ od_keys d -> k' ∈ od_keys d ->
     size_key show k = size_key show k' -> k = k') ->
  size_keyed show d = map (fun e => (size_key show (fst e), snd e)) d.
Proof.
  intros Hnd Hinj. unfold size_keyed.
  assert (Hgen : forall done rest,
    d = done ++ rest ->
    fold_left (fun acc '(size, words) => od_set (size_key show size) words acc)
      rest (map (fun e => (size_key show (fst e), snd e)) done) =
    map (fun e => (size_key show (fst e), snd e)) (done ++ rest)).
  { intros done rest. revert done.
    induction rest as [|[k ws] rest IH]; intros done Hd; simpl.
    - by rewrite app_nil_r.
    - rewrite od_set_fresh.
      + replace (map (fun e => (size_key show (fst e), snd e)) done ++
                 [(size_key show k, ws)])
          with (map (fun e => (size_key show (fst e), snd e)) (done ++ [(k, ws)]))
          by (by rewrite map_app).
        rewrite IH by (by rewrite <- app_assoc).
        by rewrite <- app_assoc.
      + unfold od_keys. rewrite map_map. simpl.
        intros (k' & Hk' & Hin)%list_elem_of_fmap.
        subst d. unfold od_keys in *. rewrite map_app in Hnd, Hinj. simpl in *.
        apply NoDup_app in Hnd as (_ & Hdis & _).
        assert (Hkk : k = k'.1).
        { apply Hinj; [| |done].
          - apply elem_of_app. right. apply elem_of_cons. by left.
          - apply elem_of_app. left. by apply list_elem_of_fmap_2. }
        apply (Hdis k).
        * rewrite Hkk. by apply list_elem_of_fmap_2.
        * apply elem_of_cons. by left. }
  apply (Hgen [] d eq_refl).
Qed.

(** What line 67 stores: the text of the page's last character when the
    page has characters, the extracted text otherwise. *)
Lemma pd_text_last_char (i : nat) (page : @Page Num) :
  pd_text (make_page_data show i page) =
    match last (chars page) with
    | Some c => char_text c
    | None => extract_text page
    end.
Proof. apply char_loop_text. Qed.

(** A page without extracted text: the title is empty, and so is the
    [text] field when the page has no characters either. *)
Lemma empty_text_page (i : nat) (page : @Page Num) :
  extract_text page = [] ->
  pd_title (make_page_data show i page) = [] /\
  (chars page = [] -> pd_text (make_page_data show i page) = []).
Proof.
  intros Ht. split.
  - simpl. by rewrite Ht.
  - intros Hc. by rewrite pd_text_last_char, Hc, Ht.
Qed.

End key_renaming.

(** ** The page loop *)

(** Where an event can be in a trace that is written out: one case per
    place, the places that cannot hold it closed. *)
Ltac event_cases Hw Hprints :=
  cbn [fst] in Hw;
  rewrite ?elem_of_app, ?elem_of_cons, ?elem_of_nil in Hw;
  repeat match type of Hw with
         | _ \/ _ => destruct Hw as [Hw|Hw]
         end;
  try done; try (by destruct (Hprints _ Hw)).

Section run.
Context {Num : Type} `{EqDecision Num}.
Variable show : Num -> pystr.
Implicit Types (page : @Page Num) (ps : list (@Page Num))
  (pdf : list (@page_read Num)) (h : host).

Lemma readable_pages pdf :
  Forall readable pdf -> exists ps, pdf = map Readable ps.
Proof.
  induction 1 as [|pg pdf Hpg _ [ps ->]]; [by exists []|].
  destruct pg as [page|]; [|done]. by exists (page :: ps).
Qed.

Lemma readable_or_not pdf : Forall readable pdf \/ Unreadable ∈ pdf.
Proof.
  induction pdf as [|[page|] pdf [IH|IH]].
  - left. constructor.
  - left. by constructor.
  - right. apply elem_of_cons. by right.
  - right. apply elem_of_cons. by left.
  - right. apply elem_of_cons. by left.
Qed.

Lemma lookup_readable (ps : list (@Page Num)) j page :
  map Readable ps !! j = Some (Readable page) -> ps !! j = Some page.
Proof.
  change (map Readable ps) with (Readable <$> ps).
  rewrite list_lookup_fmap. destruct (ps !! j); simpl; congruence.
Qed.

Lemma readable_inj (ps ps' : list (@Page Num)) :
  map Readable ps = map Readable ps' -> ps = ps'.
Proof.
  revert ps'. induction ps as [|page ps IH]; intros [|page' ps']; simpl;
    try done.
  intros [= -> Hps]. f_equal. by apply IH.
Qed.

Lemma page_records_numbers i ps :
  map pd_page_number (page_records show i ps) = seq (i + 1) (length ps).
Proof.
  revert i. induction ps as [|page ps IH]; intros i; simpl; [done|].
  rewrite IH. by rewrite <- Nat.add_succ_l.
Qed.

Lemma page_records_length i ps : length (page_records show i ps) = length ps.
Proof. revert i. induction ps; intros i; simpl; [done|]. by f_equal. Qed.

Lemma page_records_lookup i ps j page :
  ps !! j = Some page ->
  page_records show i ps !! j = Some (make_page_data show (i + j) page).
Proof.
  revert i j. induction ps as [|p ps IH]; intros i [|j]; simpl; try done.
  - intros [= ->]. by rewrite Nat.add_0_r.
  - intros Hj. rewrite (IH (S i) j Hj). by rewrite Nat.add_succ_r.
Qed.

(** When every page is readable the loop runs to its end: it prints one
    line per page, appends one record per page and draws each page's
    rectangles on the page of the same index. *)
Lemma process_pages_readable ps :
  forall i done pds,
    length done = i ->
    process_pages show i (map Readable ps)
      {| results_pages := pds;
         pdf_document := done ++ replicate (length ps) [] |} =
    (map PrintProcessing (seq (i + 1) (length ps)),
     Some {| results_pages := pds ++ page_records show i ps;
             pdf_document := done ++ map annotations ps |}).
Proof.
  induction ps as [|page ps IH]; intros i done pds Hlen; simpl.
  - by rewrite !app_nil_r.
  - unfold draw_on. simpl.
    rewrite list_lookup_middle by done. simpl.
    rewrite <- Hlen, insert_app_r_alt, Nat.sub_diag by done. simpl.
    rewrite (cons_middle (annotations page)), app_assoc.
    rewrite (IH (S (length done)) (done ++ [annotations page])
                (pds ++ [make_page_data show (length done) page]))
      by (rewrite length_app; simpl; lia).
    rewrite <- !app_assoc. simpl. do 3 f_equal.
Qed.

(** Whatever the pages are, the loop itself only prints. *)
Lemma process_pages_prints pdf :
  forall i st, Forall is_print (process_pages show i pdf st).1.
Proof.
  induction pdf as [|[page|] pdf IH]; intros i st; simpl.
  - constructor.
  - destruct (draw_on i (annotations page) (pdf_document st)) as [doc'|].
    + specialize (IH (S i)
        {| results_pages := results_pages st ++ [make_page_data show i page];
           pdf_document := doc' |}).
      destruct (process_pages show (S i) pdf _) as [out r]. simpl in *.
      by constructor.
    + by repeat constructor.
  - by repeat constructor.
Qed.

(** A page that cannot be read ends the loop with an exception. *)
Lemma process_pages_unreadable pdf :
  Unreadable ∈ pdf ->
  forall i st, (process_pages show i pdf st).2 = None.
Proof.
  induction pdf as [|[page|] pdf IH]; intros Hin i st; simpl.
  - by apply elem_of_nil in Hin.
  - apply elem_of_cons in Hin as [?|Hin]; [done|].
    destruct (draw_on i (annotations page) (pdf_document st)) as [doc'|];
      [|done].
    specialize (IH Hin (S i)
      {| results_pages := results_pages st ++ [make_page_data show i page];
         pdf_document := doc' |}).
    by destruct (process_pages show (S i) pdf _) as [out r].
  - done.
Qed.

(** The run on a document whose pages are all readable: it goes as far as
    the first call that raises. *)
Lemma detect_layout_readable h
    (pdf_path output_pdf_path output_json_path : pystr) ps :
  let r := {| pdf_path := pdf_path; pages := page_records show 0 ps |} in
  let start := [MakeDirs (dirname output_json_path) true] in
  let prints := map PrintProcessing (seq 1 (length ps)) in
  let saved := [SavePdf output_pdf_path (map annotations ps);
                PrintAnnotated output_pdf_path] in
  detect_layout show h pdf_path output_pdf_path output_json_path
    (map Readable ps) =
  if makedirs h (dirname output_json_path) then
    if save h (map annotations ps) output_pdf_path then
      if dump_returns h output_json_path then
        (start ++ prints ++ saved ++
           [WriteJson output_json_path r; PrintResults output_json_path],
         Some (r, map annotations ps))
      else (start ++ prints ++ saved, None)
    else (start ++ prints, None)
  else (start, None).
Proof.
  unfold detect_layout, fitz_open. rewrite length_map.
  pose proof (process_pages_readable ps 0 [] [] eq_refl) as Hrun.
  simpl in Hrun. rewrite Hrun. cbn [pdf_document results_pages].
  destruct (makedirs h _); [|done].
  destruct (save h _ _); [|done].
  by destruct (dump_returns h _).
Qed.

(** The trace of a run that meets a page it cannot read: the directory
    request and console lines, nothing else. *)
Lemma detect_layout_unreadable h
    (input_pdf_path output_pdf_path output_json_path : pystr) pdf :
  Unreadable ∈ pdf ->
  exists out,
    detect_layout show h input_pdf_path output_pdf_path output_json_path pdf =
      (MakeDirs (dirname output_json_path) true :: out, None) /\
    Forall is_print out.
Proof.
  intros Hin. unfold detect_layout.
  destruct (makedirs h _); [|by exists []].
  pose proof (process_pages_unreadable pdf Hin 0
    {| results_pages := []; pdf_document := fitz_open pdf |}) as Hnone.
  pose proof (process_pages_prints pdf 0
    {| results_pages := []; pdf_document := fitz_open pdf |}) as Hprints.
  destruct (process_pages show 0 pdf _) as [out res]. simpl in *.
  subst res. by exists out.
Qed.

Lemma prints_are_prints (n m : nat) :
  Forall (@is_print Num) (map PrintProcessing (seq n m)).
Proof. apply Forall_forall. by intros e (k & -> & _)%list_elem_of_fmap. Qed.

(** A report in the trace is the report of a run over readable pages, at
    least one, on a host where the three calls have returned; the trace is
    then complete. *)
Lemma written_report_run h
    (input_pdf_path output_pdf_path output_json_path : pystr) pdf path r :
  WriteJson path r ∈
    (detect_layout show h input_pdf_path output_pdf_path output_json_path
       pdf).1 ->
  exists ps,
    pdf = map Readable ps /\ path = output_json_path /\
    r = {| pdf_path := input_pdf_path; pages := page_records show 0 ps |} /\
    ps <> [] /\
    makedirs h (dirname output_json_path) = true /\
    save_returns h output_pdf_path = true /\
    dump_returns h output_json_path = true /\
    detect_layout show h input_pdf_path output_pdf_path output_json_path pdf =
      ([MakeDirs (dirname output_json_path) true] ++
       map PrintProcessing (seq 1 (length ps)) ++
       [SavePdf output_pdf_path (map annotations ps);
        PrintAnnotated output_pdf_path;
        WriteJson output_json_path r;
        PrintResults output_json_path],
       Some (r, map annotations ps)).
Proof.
  intros Hw. destruct (readable_or_not pdf) as [Hok|Hin].
  - destruct (readable_pages pdf Hok) as [ps ->]. exists ps.
    rewrite detect_layout_readable in Hw |- *.
    pose proof (prints_are_prints 1 (length ps)) as Hprints.
    rewrite Forall_forall in Hprints.
    destruct (makedirs h _) eqn:Hm; [|event_cases Hw Hprints].
    destruct (save h _ _) eqn:Hs; [|event_cases Hw Hprints].
    assert (ps <> [] /\ save_returns h output_pdf_path = true) as [Hne Hsr]
      by (by destruct ps).
    destruct (dump_returns h _) eqn:Hd; event_cases Hw Hprints.
    by injection Hw as -> ->.
  - destruct (detect_layout_unreadable h input_pdf_path output_pdf_path
                output_json_path pdf Hin) as (out & Hrun & Hprints).
    rewrite Hrun in Hw. rewrite Forall_forall in Hprints.
    event_cases Hw Hprints.
Qed.

Lemma written_report h
    (input_pdf_path output_pdf_path output_json_path : pystr) pdf path r :
  WriteJson path r ∈
    (detect_layout show h input_pdf_path output_pdf_path output_json_path
       pdf).1 ->
  exists ps,
    pdf = map Readable ps /\ path = output_json_path /\
    r = {| pdf_path := input_pdf_path; pages := page_records show 0 ps |}.
Proof.
  intros (ps & Hpdf & Hpath & Hr & _)%written_report_run. by exists ps.
Qed.

(** A saved document is the document of a run over readable pages, at
    least one, on a host where the first two calls have returned. *)
Lemma saved_document_run h
    (input_pdf_path output_pdf_path output_json_path : pystr) pdf path doc :
  SavePdf path doc ∈
    (detect_layout show h input_pdf_path output_pdf_path output_json_path
       pdf).1 ->
  exists ps,
    pdf = map Readable ps /\ path = output_pdf_path /\
    doc = map annotations ps /\
    ps <> [] /\
    makedirs h (dirname output_json_path) = true /\
    save_returns h output_pdf_path = true.
Proof.
  intros Hw. destruct (readable_or_not pdf) as [Hok|Hin].
  - destruct (readable_pages pdf Hok) as [ps ->]. exists ps.
    rewrite detect_layout_readable in Hw.
    pose proof (prints_are_prints 1 (length ps)) as Hprints.
    rewrite Forall_forall in Hprints.
    destruct (makedirs h _) eqn:Hm; [|event_cases Hw Hprints].
    destruct (save h _ _) eqn:Hs; [|event_cases Hw Hprints].
    assert (ps <> [] /\ save_returns h output_pdf_path = true) as [Hne Hsr]
      by (by destruct ps).
    destruct (dump_returns h _) eqn:Hd; event_cases Hw Hprints;
      by injection Hw as -> ->.
  - destruct (detect_layout_unreadable h input_pdf_path output_pdf_path
                output_json_path pdf Hin) as (out & Hrun & Hprints).
    rewrite Hrun in Hw. rewrite Forall_forall in Hprints.
    event_cases Hw Hprints.
Qed.

Lemma saved_document h
    (input_pdf_path output_pdf_path output_json_path : pystr) pdf path doc :
  SavePdf path doc ∈
    (detect_layout show h input_pdf_path output_pdf_path output_json_path
       pdf).1 ->
  exists ps,
    pdf = map Readable ps /\ path = output_pdf_path /\
    doc = map annotations ps.
Proof.
  intros (ps & Hpdf & Hpath & Hdoc & _)%saved_document_run. by exists ps.
Qed.

Lemma created_dirs_prints (out : list (@event Num)) :
  Forall is_print out -> created_dirs out = [].
Proof.
  induction 1 as [|e out He _ IH]; [done|].
  by destruct e.
Qed.

(** Every trace starts with the directory request. *)
Lemma detect_layout_first h
    (input_pdf_path output_pdf_path output_json_path : pystr) pdf :
  exists rest,
    (detect_layout show h input_pdf_path output_pdf_path output_json_path
       pdf).1 = MakeDirs (dirname output_json_path) true :: rest.
Proof.
  unfold detect_layout. destruct (makedirs h _); [|by eexists].
  destruct (process_pages show 0 pdf _) as [out [st|]]; [|by eexists].
  destruct (save h _ _); [|by eexists].
  destruct (dump_returns h _); by eexists.
Qed.

(** It is the only one. *)
Lemma created_dirs_run h
    (input_pdf_path output_pdf_path output_json_path : pystr) pdf :
  created_dirs
    (detect_layout show h input_pdf_path output_pdf_path output_json_path
       pdf).1 = [dirname output_json_path].
Proof.
  unfold detect_layout. destruct (makedirs h _); [|done].
  pose proof (process_pages_prints pdf 0
    {| results_pages := []; pdf_document := fitz_open pdf |}) as Hprints.
  destruct (process_pages show 0 pdf _) as [out [st|]]; simpl in *.
  - assert (Hout : forall tail : list (@event Num),
      created_dirs tail = [] -> created_dirs (out ++ tail) = []).
    { intros tail Htail. unfold created_dirs in *.
      rewrite omap_app, Htail, app_nil_r.
      by apply created_dirs_prints. }
    assert (Hcons : forall name ok (t : list (@event Num)),
      created_dirs (MakeDirs name ok :: t) = name :: created_dirs t)
      by done.
    destruct (save h _ _); [destruct (dump_returns h _)|];
      cbn [fst app]; rewrite Hcons; f_equal;
      first [by apply Hout | by apply created_dirs_prints].
  - unfold created_dirs. simpl. f_equal. by apply created_dirs_prints.
Qed.

End run.

(** ** The JSON report *)

(** Distinct member names: the parser keeps the members as written. *)
Lemma parse_object_nodup {V : Type} (o : list (pystr * V)) :
  NoDup (od_keys o) -> parse_object o = o.
Proof.
  unfold parse_object.
  assert (Hgen : forall acc,
    NoDup (od_keys (acc ++ o)) ->
    fold_left (fun d e => od_set (fst e) (snd e) d) o acc = acc ++ o).
  { induction o as [|[k v] o IH]; intros acc Hnd; simpl.
    - by rewrite app_nil_r.
    - rewrite od_set_fresh.
      + rewrite IH; rewrite <- app_assoc; done.
      + unfold od_keys in *. rewrite map_app in Hnd. simpl in Hnd.
        apply NoDup_app in Hnd as (_ & Hdis & _).
        intros Hin. apply (Hdis k Hin). apply elem_of_cons. by left. }
  intros Hnd. by apply (Hgen []).
Qed.

(** *** Python values *)

Section python_values.
Context {Num : Type}.
Implicit Types (v : @pyval Num) (line : @Line Num).

(** Induction on a Python value, the values inside it first. *)
Lemma pyval_induction (P : @pyval Num -> Prop) :
  P PyNone ->
  (forall b, P (PyBool b)) ->
  (forall n, P (PyInt n)) ->
  (forall x, P (PyFloat x)) ->
  (forall s, P (PyStr s)) ->
  (forall l, Forall P l -> P (PyTuple l)) ->
  (forall l, Forall P l -> P (PyList l)) ->
  (forall l, Forall (fun e => P (snd e)) l -> P (PyDict l)) ->
  forall v, P v.
Proof.
  intros HNone HBool HInt HFloat HStr HTuple HList HDict.
  fix IH 1. intros [|b|n|x|s|l|l|l].
  - exact HNone.
  - apply HBool.
  - apply HInt.
  - apply HFloat.
  - apply HStr.
  - apply HTuple. induction l as [|v l IHl]; constructor; [apply IH|exact IHl].
  - apply HList. induction l as [|v l IHl]; constructor; [apply IH|exact IHl].
  - apply HDict. induction l as [|[k v] l IHl]; constructor;
      [apply IH|exact IHl].
Qed.

Lemma map_ext_when {A B} (ok : A -> bool) (f g : A -> B) (l : list A) :
  Forall (fun x => ok x = true -> f x = g x) l ->
  forallb ok l = true -> map f l = map g l.
Proof.
  induction 1 as [|x l Hx _ IH]; simpl; [done|].
  intros [Hok Hl]%andb_true_iff. by rewrite Hx, IH.
Qed.

(** What [json.load] gives back for what [json.dump] wrote: the value with
    lists for its tuples. *)
Lemma py_of_json_of_py v :
  keys_once v = true -> py_of_json (json_of_py v) = lists_for_tuples v.
Proof.
  induction v as [|b|n|x|s|l IH|l IH|l IH] using pyval_induction;
    simpl; try done.
  - intros Hk. f_equal. rewrite map_map.
    by apply (map_ext_when keys_once).
  - intros Hk. f_equal. rewrite map_map.
    by apply (map_ext_when keys_once).
  - intros [Hnd Hk]%andb_true_iff. apply bool_decide_eq_true in Hnd.
    f_equal. rewrite map_map. simpl.
    rewrite (map_ext_when (fun e => keys_once (snd e))
               (fun e => (fst e, py_of_json (json_of_py (snd e))))
               (fun e => (fst e, lists_for_tuples (snd e))) l).
    + apply parse_object_nodup. unfold od_keys. by rewrite map_map.
    + eapply Forall_impl; [exact IH|]. intros e He Hok. simpl in *.
      by rewrite He.
    + exact Hk.
Qed.

Lemma map_fixed {A} (f : A -> A) (l : list A) :
  map f l = l <-> Forall (fun x => f x = x) l.
Proof.
  induction l as [|x l IH]; simpl.
  - split; [constructor|done].
  - split.
    + intros [= Hx Hl]. constructor; [done|]. by apply IH.
    + intros [Hx Hl]%Forall_cons. rewrite Hx. f_equal. by apply IH.
Qed.

(** A value is read back as it was exactly when it holds no tuple. *)
Lemma lists_for_tuples_fixed v :
  lists_for_tuples v = v <-> tuple_free v = true.
Proof.
  induction v as [|b|n|x|s|l IH|l IH|l IH] using pyval_induction;
    simpl; try done.
  - assert (Heq : PyList (map lists_for_tuples l) = PyList l <->
                  map lists_for_tuples l = l)
      by (split; [by intros [= ?]|by intros ->]).
    rewrite Heq, map_fixed, forallb_forall, Forall_forall.
    rewrite Forall_forall in IH.
    split; intros Hl v Hv.
    + apply IH; [by apply list_elem_of_In|]. apply Hl.
      by apply list_elem_of_In.
    + apply IH; [done|]. apply Hl. by apply list_elem_of_In.
  - assert (Heq :
      PyDict (map (fun e => (fst e, lists_for_tuples (snd e))) l) =
        PyDict l <->
      map (fun e : pystr * pyval => (fst e, lists_for_tuples (snd e))) l = l)
      by (split; [by intros [= ?]|by intros ->]).
    rewrite Heq, map_fixed, forallb_forall, Forall_forall.
    rewrite Forall_forall in IH.
    split; intros Hl e He.
    + apply IH; [by apply list_elem_of_In|].
      assert (He' : e ∈ l) by (by apply list_elem_of_In).
      specialize (Hl e He'). destruct e as [k v]. simpl in *. congruence.
    + destruct e as [k v]. simpl. f_equal. apply (IH (k, v) He).
      apply (Hl (k, v)). by apply list_elem_of_In.
Qed.

Lemma as_line_json line :
  keys_once (PyDict line) = true ->
  as_line (json_of_line line) = Some (untupled_line line).
Proof.
  intros Hk. unfold as_line, json_of_line.
  rewrite (py_of_json_of_py (PyDict line) Hk). done.
Qed.

Lemma untupled_line_fixed line :
  untupled_line line = line <-> tuple_free (PyDict line) = true.
Proof.
  rewrite <- lists_for_tuples_fixed. simpl. unfold untupled_line.
  split; [by intros ->|by intros [= ?]].
Qed.

Lemma untupled_page_fixed (pd : @page_data Num) :
  untupled_page pd = pd <->
  forall line, line ∈ pd_lines pd -> tuple_free (PyDict line) = true.
Proof.
  assert (Heq : untupled_page pd = pd <->
                map untupled_line (pd_lines pd) = pd_lines pd).
  { unfold untupled_page. destruct pd; simpl. split.
    - by intros [= ?].
    - by intros ->. }
  rewrite Heq, map_fixed, Forall_forall.
  split; intros Hl line Hline; apply untupled_line_fixed; by apply Hl.
Qed.

(** The results are read back as they were exactly when no line record
    holds a tuple. *)
Lemma untupled_fixed (r : @results Num) :
  untupled r = r <->
  forall pd line,
    pd ∈ pages r -> line ∈ pd_lines pd -> tuple_free (PyDict line) = true.
Proof.
  assert (Heq : untupled r = r <-> map untupled_page (pages r) = pages r).
  { unfold untupled. destruct r; simpl. split.
    - by intros [= ?].
    - by intros ->. }
  rewrite Heq, map_fixed, Forall_forall. split.
  - intros Hl pd line Hpd. by apply untupled_page_fixed, Hl.
  - intros Hl pd Hpd. apply untupled_page_fixed. intros line.
    by apply Hl.
Qed.

End python_values.

Section json_round_trip.
Context {Num : Type} `{EqDecision Num}.
Variable show : Num -> pystr.
Implicit Types (j : @json Num) (o : list (pystr * @json Num)).

Lemma as_count_json (n : nat) : as_count (@json_of_count Num n) = Some n.
Proof.
  unfold as_count, json_of_count.
  rewrite (proj2 (Z.leb_le _ _)) by lia. by rewrite Nat2Z.id.
Qed.

Lemma as_tables_json (tables : list (list (list (option pystr)))) :
  as_array (as_array (as_array as_cell))
    (JArr (map (@json_of_table Num) tables)) = Some tables.
Proof.
  simpl. apply mapM_fmap_Some. intros table. simpl.
  apply mapM_fmap_Some. intros row. simpl.
  apply mapM_fmap_Some. by intros [s|].
Qed.

Lemma as_words_json (m : list (pystr * list pystr)) :
  NoDup (od_keys m) ->
  as_words (JObj (map (@json_of_words Num) m)) = Some m.
Proof.
  intros Hnd. unfold as_words. rewrite parse_object_nodup.
  - apply mapM_fmap_Some. intros [k ws]. simpl.
    rewrite (mapM_fmap_Some as_string JStr) by done. done.
  - unfold od_keys. rewrite map_map. exact Hnd.
Qed.

(** The nine members of a page object are found under their names. *)
Lemma page_members (a b c d e f g h i : @json Num) :
  let o := [(lit "page_number", a); (lit "title", b); (lit "text", c);
            (lit "tables_count", d); (lit "images_count", e);
            (lit "tables", f); (lit "lines_count", g); (lit "lines", h);
            (lit "words_with_font_sizes", i)] in
  field "page_number" o = Some a /\ field "title" o = Some b /\
  field "text" o = Some c /\ field "tables_count" o = Some d /\
  field "images_count" o = Some e /\ field "tables" o = Some f /\
  field "lines_count" o = Some g /\ field "lines" o = Some h /\
  field "words_with_font_sizes" o = Some i.
Proof. vm_compute. by repeat split. Qed.

Lemma report_members (a b : @json Num) :
  let o := [(lit "pdf_path", a); (lit "pages", b)] in
  field "pdf_path" o = Some a /\ field "pages" o = Some b.
Proof. vm_compute. by split. Qed.

Lemma read_page_json (pd : @page_data Num) :
  NoDup (od_keys (pd_words_with_font_sizes pd)) ->
  Forall (fun line => keys_once (PyDict line) = true) (pd_lines pd) ->
  read_page (JObj (page_object pd)) = Some (untupled_page pd).
Proof.
  intros Hnd Hlines. unfold read_page, page_object.
  destruct (page_members
    (json_of_count (pd_page_number pd)) (JStr (pd_title pd))
    (JStr (pd_text pd)) (json_of_count (pd_tables_count pd))
    (json_of_count (pd_images_count pd))
    (JArr (map json_of_table (pd_tables pd)))
    (json_of_count (pd_lines_count pd))
    (JArr (map json_of_line (pd_lines pd)))
    (JObj (map json_of_words (pd_words_with_font_sizes pd))))
    as (-> & -> & -> & -> & -> & -> & -> & -> & ->).
  cbn [mbind option_bind]. rewrite !as_count_json. cbn [mbind option_bind as_string].
  rewrite as_tables_json. cbn [mbind option_bind].
  rewrite (as_words_json _ Hnd).
  replace (as_array as_line (JArr (map json_of_line (pd_lines pd))))
    with (Some (map untupled_line (pd_lines pd))); [done|].
  symmetry. cbn [as_array].
  induction Hlines as [|line l Hline _ IH]; [done|].
  cbn [map mapM]. rewrite (as_line_json line Hline). cbn [mbind option_bind].
  rewrite IH. done.
Qed.

Lemma mapM_map_Some {A B} (f : A -> option B) (g : B -> A) (u : B -> B)
    (l : list B) :
  Forall (fun x => f (g x) = Some (u x)) l ->
  mapM f (map g l) = Some (map u l).
Proof.
  induction 1 as [|x l Hx _ IH]; [done|].
  cbn [map mapM]. rewrite Hx. cbn [mbind option_bind]. by rewrite IH.
Qed.

Lemma page_records_page i (ps : list (@Page Num)) pd :
  pd ∈ page_records show i ps ->
  exists n page, pd = make_page_data show n page /\ page ∈ ps.
Proof.
  revert i. induction ps as [|page ps IH]; intros i; simpl.
  - by intros ?%elem_of_nil.
  - intros [->|Hin]%elem_of_cons.
    + exists i, page. split; [done|]. apply elem_of_cons. by left.
    + destruct (IH (S i) Hin) as (n & page' & -> & Hpage).
      exists n, page'. split; [done|]. apply elem_of_cons. by right.
Qed.

Lemma page_records_elem i (ps : list (@Page Num)) pd :
  pd ∈ page_records show i ps ->
  exists n page, pd = make_page_data show n page.
Proof.
  revert i. induction ps as [|page ps IH]; intros i; simpl.
  - by intros ?%elem_of_nil.
  - intros [->|Hin]%elem_of_cons; [by exists i, page|]. by apply (IH (S i)).
Qed.

Lemma page_records_nodup i (ps : list (@Page Num)) :
  Forall (fun pd => NoDup (od_keys (pd_words_with_font_sizes pd)))
         (page_records show i ps).
Proof.
  revert i. induction ps as [|page ps IH]; intros i; simpl; constructor.
  - apply size_keyed_nodup.
  - apply IH.
Qed.

End json_round_trip.

(** ** Runs on concrete documents *)

Lemma two_pages_run :
  detect_layout show_whole granting main_pdf_path main_output_pdf_path
    main_output_json_path two_pages =
  ([MakeDirs (lit "output") true;
    PrintProcessing 1; PrintProcessing 2;
    SavePdf main_output_pdf_path two_pages_document;
    PrintAnnotated main_output_pdf_path;
    WriteJson main_output_json_path (two_pages_report main_pdf_path);
    PrintResults main_output_json_path],
   Some (two_pages_report main_pdf_path, two_pages_document)).
Proof. vm_compute. reflexivity. Qed.

Lemma two_pages_report_written :
  WriteJson main_output_json_path (two_pages_report main_pdf_path) ∈
    (detect_layout show_whole granting main_pdf_path main_output_pdf_path
       main_output_json_path two_pages).1.
Proof.
  rewrite two_pages_run. cbn [fst]. rewrite !elem_of_cons.
  do 5 right. by left.
Qed.

Lemma two_pages_document_saved :
  SavePdf main_output_pdf_path two_pages_document ∈
    (detect_layout show_whole granting main_pdf_path main_output_pdf_path
       main_output_json_path two_pages).1.
Proof.
  rewrite two_pages_run. cbn [fst]. rewrite !elem_of_cons.
  do 3 right. by left.
Qed.

Lemma ruled_report_written :
  WriteJson main_output_json_path ruled_report ∈
    (detect_layout show_whole granting main_pdf_path main_output_pdf_path
       main_output_json_path ruled_pdf).1.
Proof.
  replace (detect_layout show_whole granting main_pdf_path
             main_output_pdf_path main_output_json_path ruled_pdf).1
    with [MakeDirs (lit "output") true;
          PrintProcessing 1;
          SavePdf main_output_pdf_path [annotations ruled_page];
          PrintAnnotated main_output_pdf_path;
          WriteJson main_output_json_path ruled_report;
          PrintResults main_output_json_path]
    by (vm_compute; reflexivity).
  rewrite !elem_of_cons. do 4 right. by left.
Qed.

(** A host on which the document cannot be saved: no file is written. *)
Example no_save_run :
  detect_layout show_whole no_save main_pdf_path main_output_pdf_path
    main_output_json_path two_pages =
  ([MakeDirs (lit "output") true; PrintProcessing 1; PrintProcessing 2],
   None).
Proof. vm_compute. reflexivity. Qed.

(** A host on which the report cannot be written: the run ends with an
    exception after the annotated PDF has been saved. *)
Example no_dump_run :
  detect_layout show_whole no_dump main_pdf_path main_output_pdf_path
    main_output_json_path two_pages =
  ([MakeDirs (lit "output") true; PrintProcessing 1; PrintProcessing 2;
    SavePdf main_output_pdf_path two_pages_document;
    PrintAnnotated main_output_pdf_path],
   None).
Proof. vm_compute. reflexivity. Qed.

Lemma one_page_run :
  detect_layout show_whole granting (lit "a.pdf") (lit "out/b.pdf")
    (lit "out/b.json") one_page =
  ([MakeDirs (lit "out") true;
    PrintProcessing 1;
    SavePdf (lit "out/b.pdf") [annotations busy_page];
    PrintAnnotated (lit "out/b.pdf");
    WriteJson (lit "out/b.json")
      {| pdf_path := lit "a.pdf";
         pages := [make_page_data show_whole 0 busy_page] |};
    PrintResults (lit "out/b.json")],
   Some ({| pdf_path := lit "a.pdf";
            pages := [make_page_data show_whole 0 busy_page] |},
         [annotations busy_page])).
Proof. vm_compute. reflexivity. Qed.

Lemma one_page_report_written :
  WriteJson (lit "out/b.json")
    {| pdf_path := lit "a.pdf";
       pages := [make_page_data show_whole 0 busy_page] |} ∈
    (detect_layout show_whole granting (lit "a.pdf") (lit "out/b.pdf")
       (lit "out/b.json") one_page).1.
Proof.
  rewrite one_page_run. cbn [fst]. rewrite !elem_of_cons.
  do 4 right. by left.
Qed.

Lemma one_page_document_saved :
  SavePdf (lit "out/b.pdf") [annotations busy_page] ∈
    (detect_layout show_whole granting (lit "a.pdf") (lit "out/b.pdf")
       (lit "out/b.json") one_page).1.
Proof.
  rewrite one_page_run. cbn [fst]. rewrite !elem_of_cons.
  do 2 right. by left.
Qed.

(** * Part IV: the properties *)

(** ** The [text] field (C1, C4) *)

(** C1: the record of a page should hold the page's extracted text in its
    [text] field.  On the page [hi_page], whose extracted text is "Hi", the
    field holds "i", the text of the last character: the character loop
    reuses the variable [text]. *)
Theorem text_field_of_hi_page :
  extract_text hi_page = lit "Hi" /\
  pd_text (make_page_data show_whole 0 hi_page) = lit "i".
Proof. split; reflexivity. Qed.

(** C4: a page whose extracted text is empty should get an empty [title]
    and an empty [text].  On [space_page] the title is empty, but the [text]
    field holds the space: the same reuse of [text] as for C1. *)
Theorem text_field_of_space_page :
  extract_text space_page = [] /\
  pd_title (make_page_data show_whole 0 space_page) = [] /\
  pd_text (make_page_data show_whole 0 space_page) = lit " ".
Proof. repeat split; reflexivity. Qed.

(** ** The word grouping (C2, C10) *)

(** C2, counterexample: a run that starts with a space loses it. *)
Lemma words_drop_outer_space :
  ~ words_partition_chars [mk_char " " 12; mk_char "a" 12].
Proof. intros Hp. specialize (Hp 12%Z). vm_compute in Hp. discriminate. Qed.


(** C2, amended: the maximal runs of equal font size partition the page's
    characters (concatenated they give the characters back, each run is
    non-empty and of one size, adjacent runs differ in size); the
    [OrderedDict] holds, under each font size, the stripped texts of the runs
    of that size in extraction order, a last run with an empty text left
    out, and it has no other key; and when the sizes that occur format
    differently, the mapping stored in the page record is this dictionary
    with each key [size] written ["Size: " ++ show size]. *)
Theorem words_are_stripped_runs {Num : Type} `{EqDecision Num}
    (show : Num -> pystr) (i : nat) (page : @Page Num) :
  concat (runs (chars page)) = chars page /\
  Forall uniform (runs (chars page)) /\
  sizes_alternate (runs (chars page)) /\
  (forall k : option Num,
     od_get k (group_words (chars page)) =
       match filter (fun r => run_size r = k)
                    (emitted_runs (runs (chars page))) with
       | [] => None
       | rs => Some (map (fun r => strip (run_text r)) rs)
       end) /\
  ((forall k k',
      k ∈ od_keys (group_words (chars page)) ->
      k' ∈ od_keys (group_words (chars page)) ->
      size_key show k = size_key show k' -> k = k') ->
   pd_words_with_font_sizes (make_page_data show i page) =
     map (fun e => (size_key show (fst e), snd e))
         (group_words (chars page))).
Proof.
  split; [apply runs_concat|].
  split; [apply runs_uniform|].
  split; [apply runs_alternate|].
  split; [intros k; apply od_get_group_words|].
  intros Hinj. simpl. rewrite flush_text_irrelevant.
  apply size_keyed_renames; [apply group_words_nodup | exact Hinj].
Qed.

(** C2 on [spaced_page]: the runs " a", " " and "b " give the words "a" and
    "b" under size 12 and the empty word under size 10. *)
Lemma words_are_stripped_runs_witness :
  od_get (Some 12%Z) (group_words (chars spaced_page)) =
    Some [lit "a"; lit "b"] /\
  pd_words_with_font_sizes (make_page_data show_whole 0 spaced_page) =
    [(lit "Size: 12.0", [lit "a"; lit "b"]); (lit "Size: 10.0", [[]])].
Proof.
  pose proof (words_are_stripped_runs show_whole 0 spaced_page)
    as (_ & _ & _ & Hget & Hkeys).
  split.
  - rewrite Hget. reflexivity.
  - rewrite Hkeys; [reflexivity|].
    intros k k' Hk Hk'.
    change (od_keys (group_words (chars spaced_page)))
      with [Some 12%Z; Some 10%Z] in Hk, Hk'.
    rewrite !elem_of_cons, elem_of_nil in Hk, Hk'.
    destruct Hk as [->|[->|[]]], Hk' as [->|[->|[]]];
      intros Heq; first [reflexivity | vm_compute in Heq; discriminate].
Defined.

Section stripped_words.
Context {Num : Type} `{EqDecision Num}.
Variable show : Num -> pystr.

(** C10: the words of a bucket are the texts of the runs of its font size
    that reach the dictionary, each text stripped of the white space at its
    two ends, one word for each run and in the order of the runs; this
    holds of the [OrderedDict] and of the mapping stored in the page
    record.  So every word of every bucket has no white space at either
    end, and a run made of white space only is not left out: its word is
    the empty string. *)
Theorem words_have_no_outer_space (i : nat) (page : @Page Num) :
  (forall k ws,
     (k, ws) ∈ group_words (chars page) ->
     ws = map (fun r => strip (run_text r))
              (filter (fun r => run_size r = k)
                      (emitted_runs (runs (chars page))))) /\
  (forall key ws,
     (key, ws) ∈ pd_words_with_font_sizes (make_page_data show i page) ->
     exists k,
       key = size_key show k /\
       ws = map (fun r => strip (run_text r))
                (filter (fun r => run_size r = k)
                        (emitted_runs (runs (chars page))))) /\
  (forall k ws w,
     (k, ws) ∈ group_words (chars page) -> w ∈ ws -> no_outer_space w) /\
  (forall key ws w,
     (key, ws) ∈ pd_words_with_font_sizes (make_page_data show i page) ->
     w ∈ ws -> no_outer_space w) /\
  (forall r,
     r ∈ runs (chars page) ->
     truthy (run_text r) = true ->
     forallb isspace (run_text r) = true ->
     [] ∈ bucket (run_size r) (group_words (chars page))).
Proof.
  split; [|split; [|split; [|split]]].
  - intros k ws. apply group_words_elem.
  - intros key ws Hin. simpl in Hin. rewrite flush_text_irrelevant in Hin.
    apply size_keyed_elem in Hin as (k & Hkey & Hk).
    exists k. split; [done|]. by apply group_words_elem.
  - intros k ws w. apply group_words_stripped.
  - intros key ws w Hin Hw. simpl in Hin. rewrite flush_text_irrelevant in Hin.
    apply size_keyed_elem in Hin as (k & _ & Hk).
    by apply (group_words_stripped (chars page) k ws).
  - intros r. apply blank_run_emitted.
Qed.

End stripped_words.

(** C10 on [spaced_page]: the runs " a", " " and "b " give "a" and "b"
    under size 12 and the empty word under size 10. *)
Lemma words_have_no_outer_space_witness :
  [lit "a"; lit "b"] =
    map (fun r => strip (run_text r))
        (filter (fun r => run_size r = Some 12%Z)
                (emitted_runs (runs (chars spaced_page)))) /\
  pd_words_with_font_sizes (make_page_data show_whole 0 spaced_page) =
    [(lit "Size: 12.0", [lit "a"; lit "b"]); (lit "Size: 10.0", [[]])] /\
  no_outer_space (lit "a") /\
  [] ∈ bucket (Some 10%Z) (group_words (chars spaced_page)).
Proof.
  pose proof (words_have_no_outer_space show_whole 0 spaced_page)
    as (Hruns & _ & _ & Hpage & Hblank).
  split; [|split; [reflexivity|split]].
  - apply (Hruns (Some 12%Z) [lit "a"; lit "b"]).
    vm_compute. apply elem_of_cons. by left.
  - apply (Hpage (lit "Size: 12.0") [lit "a"; lit "b"]).
    + vm_compute. apply elem_of_cons. by left.
    + apply elem_of_cons. by left.
  - apply (Hblank [mk_char " " 10]).
    + vm_compute. apply elem_of_cons. right. apply elem_of_cons. by left.
    + reflexivity.
    + reflexivity.
Defined.

(** ** The report and the annotated document (C3, C5, C7, C8) *)

Section run_claims.
Context {Num : Type} `{EqDecision Num}.
Variable show : Num -> pystr.
Variable h : host.
Variables input_pdf_path output_pdf_path output_json_path : pystr.
Implicit Types (page : @Page Num) (pdf : list (@page_read Num)).

(** C3: the [pages] list of every JSON report that a run on an [N]-page
    document writes has [N] records, whose page numbers are 1, 2, ..., N in
    this order. *)
Theorem report_pages_numbered pdf path r :
  WriteJson path r ∈
    (detect_layout show h input_pdf_path output_pdf_path output_json_path
       pdf).1 ->
  length (pages r) = length pdf /\
  map pd_page_number (pages r) = seq 1 (length pdf).
Proof.
  intros (ps & -> & _ & ->)%written_report. simpl pages.
  by rewrite page_records_length, page_records_numbers, length_map.
Qed.

(** C5: every annotated document that a run saves has as many pages as the
    input, and on each page the number of rectangles is the [images_count]
    of the page's record, plus the number of tables that [find_tables]
    returns (its own call, not [extract_tables]), plus the number of
    characters of the page; the record is the one the report holds at the
    place of the page, whenever the report is written. *)
Theorem annotated_rectangle_counts pdf path doc :
  SavePdf path doc ∈
    (detect_layout show h input_pdf_path output_pdf_path output_json_path
       pdf).1 ->
  length doc = length pdf /\
  forall j page,
    pdf !! j = Some (Readable page) ->
    exists drawn,
      doc !! j = Some drawn /\
      length drawn =
        (pd_images_count (make_page_data show j page) +
         length (find_tables page) + length (chars page))%nat /\
      forall path' r,
        WriteJson path' r ∈
          (detect_layout show h input_pdf_path output_pdf_path
             output_json_path pdf).1 ->
        exists pd,
          pages r !! j = Some pd /\
          length drawn =
            (pd_images_count pd + length (find_tables page) +
             length (chars page))%nat.
Proof.
  intros (ps & -> & _ & ->)%saved_document.
  split; [by rewrite !length_map|].
  intros j page Hj%lookup_readable.
  assert (Hcount : length (annotations page) =
    (length (images page) + length (find_tables page) +
     length (chars page))%nat).
  { unfold annotations. rewrite !length_app, !length_map. lia. }
  exists (annotations page). split; [|split].
  - change (map annotations ps) with (annotations <$> ps).
    by rewrite list_lookup_fmap, Hj.
  - exact Hcount.
  - intros path' r (ps' & Hps & _ & ->)%written_report.
    apply readable_inj in Hps as <-. simpl pages.
    exists (make_page_data show (0 + j) page).
    split; [by apply page_records_lookup|]. exact Hcount.
Qed.

(** C7: a JSON report is written only at the very end of a trace that
    first shows every page processed and then the annotated PDF saved; if
    some page raises, the run ends with the exception and its trace has no
    JSON report. *)
Theorem json_written_last pdf :
  (forall path r,
     WriteJson path r ∈
       (detect_layout show h input_pdf_path output_pdf_path
          output_json_path pdf).1 ->
     Forall readable pdf /\ path = output_json_path /\
     exists doc,
       (detect_layout show h input_pdf_path output_pdf_path
          output_json_path pdf).1 =
         [MakeDirs (dirname output_json_path) true] ++
         map PrintProcessing (seq 1 (length pdf)) ++
         [SavePdf output_pdf_path doc;
          PrintAnnotated output_pdf_path;
          WriteJson path r;
          PrintResults output_json_path]) /\
  (Unreadable ∈ pdf ->
     (detect_layout show h input_pdf_path output_pdf_path
        output_json_path pdf).2 = None /\
     forall path r,
       WriteJson path r ∉
         (detect_layout show h input_pdf_path output_pdf_path
            output_json_path pdf).1).
Proof.
  split.
  - intros path r Hw.
    destruct (written_report_run _ _ _ _ _ _ _ _ Hw)
      as (ps & -> & -> & -> & _ & _ & _ & _ & Hrun).
    split; [by apply Forall_fmap, Forall_true|]. split; [done|].
    rewrite Hrun, length_map. by eexists.
  - intros Hin.
    destruct (detect_layout_unreadable show h input_pdf_path output_pdf_path
                output_json_path pdf Hin) as (out & Hrun & Hprints).
    rewrite Hrun. split; [done|].
    intros path r [?|Hw]%elem_of_cons; [done|].
    rewrite Forall_forall in Hprints. by destruct (Hprints _ Hw).
Qed.

(** C8, amended: a document without pages gives no page record and no
    output: after the directory request the run ends with an exception,
    the one that saving a document without pages raises.  A page without
    tables, images, lines and characters gets a record with the three
    counts at 0 and an empty [words_with_font_sizes]; its turn of the loop
    raises nothing, it stores the record and the loop goes on with the
    next page; and the record is the one that every written report holds
    at the place of the page. *)
Theorem nothing_to_extract :
  detect_layout show h input_pdf_path output_pdf_path output_json_path [] =
    ([MakeDirs (dirname output_json_path) true], None) /\
  (forall i page rest st,
     no_elements page ->
     (i < length (pdf_document st))%nat ->
     pd_tables_count (make_page_data show i page) = 0%nat /\
     pd_images_count (make_page_data show i page) = 0%nat /\
     pd_lines_count (make_page_data show i page) = 0%nat /\
     pd_words_with_font_sizes (make_page_data show i page) = [] /\
     exists doc',
       process_pages show i (Readable page :: rest) st =
         (PrintProcessing (i + 1) ::
            (process_pages show (S i) rest
               {| results_pages :=
                    results_pages st ++ [make_page_data show i page];
                  pdf_document := doc' |}).1,
          (process_pages show (S i) rest
             {| results_pages :=
                  results_pages st ++ [make_page_data show i page];
                pdf_document := doc' |}).2)) /\
  (forall pdf path r j page,
     WriteJson path r ∈
       (detect_layout show h input_pdf_path output_pdf_path
          output_json_path pdf).1 ->
     pdf !! j = Some (Readable page) -> no_elements page ->
     exists pd,
       pages r !! j = Some pd /\
       pd_tables_count pd = 0%nat /\ pd_images_count pd = 0%nat /\
       pd_lines_count pd = 0%nat /\ pd_words_with_font_sizes pd = []).
Proof.
  assert (Hrecord : forall i page,
    no_elements page ->
    pd_tables_count (make_page_data show i page) = 0%nat /\
    pd_images_count (make_page_data show i page) = 0%nat /\
    pd_lines_count (make_page_data show i page) = 0%nat /\
    pd_words_with_font_sizes (make_page_data show i page) = []).
  { intros i page (Ht & Hi & Hl & Hc). unfold make_page_data. simpl.
    by rewrite Ht, Hi, Hl, Hc. }
  split; [|split].
  - unfold detect_layout. by destruct (makedirs h _).
  - intros i page rest st Hno Hi.
    destruct (Hrecord i page Hno) as (Ht & Him & Hl & Hw).
    do 4 (split; [done|]).
    cbn [process_pages]. unfold draw_on.
    destruct (lookup_lt_is_Some_2 _ _ Hi) as [pdf_page ->].
    exists (<[i := pdf_page ++ annotations page]> (pdf_document st)).
    by destruct (process_pages _ _ _ _).
  - intros pdf path r j page (ps & -> & _ & ->)%written_report
           Hj%lookup_readable Hno.
    simpl pages. exists (make_page_data show (0 + j) page).
    split; [by apply page_records_lookup|]. by apply Hrecord.
Qed.

End run_claims.

(** C3 on [two_pages]: the report is written, with the page numbers 1
    and 2. *)
Lemma report_pages_numbered_witness :
  WriteJson main_output_json_path (two_pages_report main_pdf_path) ∈
    (detect_layout show_whole granting main_pdf_path main_output_pdf_path
       main_output_json_path two_pages).1 /\
  length (pages (two_pages_report main_pdf_path)) = 2%nat /\
  map pd_page_number (pages (two_pages_report main_pdf_path)) = [1; 2]%nat.
Proof.
  split; [apply two_pages_report_written|].
  apply (report_pages_numbered show_whole granting main_pdf_path
           main_output_pdf_path main_output_json_path two_pages
           main_output_json_path (two_pages_report main_pdf_path)).
  apply two_pages_report_written.
Defined.

(** C5 on [two_pages]: the saved document has two pages, and four
    rectangles on the first: one image, one found table, two characters;
    the record of that page counts one image and no table. *)
Lemma annotated_rectangle_counts_witness :
  length two_pages_document = 2%nat /\
  exists drawn,
    two_pages_document !! 0%nat = Some drawn /\
    length drawn = (1 + 1 + 2)%nat /\
    pd_tables_count (make_page_data show_whole 0 busy_page) = 0%nat.
Proof.
  destruct (annotated_rectangle_counts show_whole granting main_pdf_path
              main_output_pdf_path main_output_json_path two_pages
              main_output_pdf_path two_pages_document
              two_pages_document_saved) as [Hlen Hpages].
  split; [exact Hlen|].
  destruct (Hpages 0%nat busy_page eq_refl) as (drawn & Hdrawn & Hcount & _).
  exists drawn. split; [exact Hdrawn|]. split; [exact Hcount|reflexivity].
Defined.

(** On [busy_page] the record counts no table, yet four rectangles are
    drawn: one image, one found table, two characters. *)
Example busy_page_rectangles :
  pd_tables_count (make_page_data show_whole 0 busy_page) = 0%nat /\
  length (annotations busy_page) = 4%nat.
Proof. split; reflexivity. Qed.

(** C7 on [broken_pdf]: the second page raises, no report is written. *)
Lemma json_written_last_witness :
  (detect_layout show_whole granting main_pdf_path main_output_pdf_path
     main_output_json_path broken_pdf).2 = None /\
  forall path r,
    WriteJson path r ∉
      (detect_layout show_whole granting main_pdf_path main_output_pdf_path
         main_output_json_path broken_pdf).1.
Proof.
  apply (json_written_last show_whole granting main_pdf_path
           main_output_pdf_path main_output_json_path broken_pdf).
  apply elem_of_cons. right. apply elem_of_cons. by left.
Defined.

(** C8, counterexample: on a host that grants every request, the run on a
    document without pages ends with an exception. *)
Lemma zero_pages_raise :
  ~ no_fault_without_pages show_whole granting main_pdf_path
      main_output_pdf_path main_output_json_path.
Proof. intros (r & doc & Hrun). vm_compute in Hrun. discriminate. Qed.

(** C8 on [two_pages]: the record of the empty second page in the written
    report. *)
Lemma nothing_to_extract_witness :
  exists pd,
    pages (two_pages_report main_pdf_path) !! 1%nat = Some pd /\
    pd_tables_count pd = 0%nat /\ pd_images_count pd = 0%nat /\
    pd_lines_count pd = 0%nat /\ pd_words_with_font_sizes pd = [].
Proof.
  destruct (nothing_to_extract show_whole granting main_pdf_path
              main_output_pdf_path main_output_json_path)
    as (_ & _ & Hreport).
  apply (Hreport two_pages main_output_json_path
           (two_pages_report main_pdf_path) 1%nat empty_page).
  - apply two_pages_report_written.
  - reflexivity.
  - by repeat split.
Defined.

(** ** Directory creation (C6) *)

(** C6, counterexample: with the paths of the script's own entry point both
    outputs go to the directory [output], which the run creates. *)
Lemma main_creates_pdf_parent :
  ~ pdf_parent_never_created show_whole granting main_pdf_path
      main_output_pdf_path main_output_json_path two_pages.
Proof.
  unfold pdf_parent_never_created. intros Hnot. apply Hnot.
  replace (created_dirs _) with [dirname main_output_pdf_path]
    by (vm_compute; reflexivity).
  by apply list_elem_of_singleton.
Qed.

(** C6, amended: the first effect of every run, before any page is looked
    at, is the request to create the parent directory of the JSON output
    path, existing directories accepted; it is the only directory the run
    asks for, whatever the PDF output path is, so the parent of the PDF
    output is asked for exactly when it is the parent of the JSON output. *)
Theorem only_json_parent_created {Num : Type} `{EqDecision Num}
    (show : Num -> pystr) (h : host)
    (pdf_path output_pdf_path output_json_path : pystr)
    (pdf : list (@page_read Num)) :
  let trace :=
    (detect_layout show h pdf_path output_pdf_path output_json_path pdf).1 in
  (exists rest,
     trace = MakeDirs (dirname output_json_path) true :: rest) /\
  created_dirs trace = [dirname output_json_path] /\
  (dirname output_pdf_path ∈ created_dirs trace <->
   dirname output_pdf_path = dirname output_json_path).
Proof.
  simpl. split; [apply detect_layout_first|].
  rewrite created_dirs_run. split; [done|]. apply list_elem_of_singleton.
Qed.

(** ** The JSON report (C9) *)

(** C9, counterexample: the end points of the ruling of [ruled_page] are
    tuples; in what is read back from the report they are lists. *)
Lemma tuples_read_back_as_lists :
  ~ read_back_unchanged show_whole granting main_pdf_path
      main_output_pdf_path main_output_json_path ruled_pdf.
Proof.
  intros Hsame.
  specialize (Hsame _ _ ruled_report_written).
  vm_compute in Hsame. discriminate.
Qed.

Section report.
Context {Num : Type} `{EqDecision Num}.
Variable show : Num -> pystr.

(** C9, amended: for every report that a run writes, the line records
    being Python dictionaries, reading the JSON value of the report back
    (the parser's objects, then the shape of section 6: a string
    [pdf_path], an array [pages] of objects with the nine documented
    members, counts as integers, tables as arrays of arrays of strings or
    nulls, lines as objects, the word mapping as an object of arrays of
    strings) succeeds and gives the [results] the program held with a list
    in the place of every tuple of the line records, and nothing else
    changed; it gives the [results] themselves exactly when no line record
    holds a tuple; and every key of a word mapping reads ["Size: "]
    followed by a formatted number. *)
Theorem report_round_trip (h : host)
    (input_pdf_path output_pdf_path output_json_path : pystr)
    (pdf : list (@page_read Num)) path r :
  WriteJson path r ∈
    (detect_layout show h input_pdf_path output_pdf_path output_json_path
       pdf).1 ->
  (forall page line,
     Readable page ∈ pdf -> line ∈ lines page ->
     keys_once (PyDict line) = true) ->
  read_report (json_of_results r) = Some (untupled r) /\
  (read_report (json_of_results r) = Some r <->
   forall pd line,
     pd ∈ pages r -> line ∈ pd_lines pd -> tuple_free (PyDict line) = true) /\
  forall pd key,
    pd ∈ pages r ->
    key ∈ od_keys (pd_words_with_font_sizes pd) ->
    exists s, key = lit "Size: " ++ show s.
Proof.
  intros (ps & -> & _ & ->)%written_report Hdicts.
  assert (Hread :
    read_report
      (json_of_results
         {| pdf_path := input_pdf_path; pages := page_records show 0 ps |}) =
    Some (untupled
         {| pdf_path := input_pdf_path; pages := page_records show 0 ps |})).
  { unfold read_report, json_of_results, untupled. cbn [pdf_path pages].
    destruct (report_members (JStr input_pdf_path)
      (JArr (map (fun pd => JObj (page_object pd))
                 (page_records show 0 ps))))
      as [-> ->].
    cbn [mbind option_bind as_string as_array].
    rewrite (mapM_map_Some read_page (fun pd => JObj (page_object pd))
               untupled_page); [done|].
    apply Forall_forall. intros pd Hpd.
    pose proof (page_records_nodup show 0 ps) as Hnd.
    rewrite Forall_forall in Hnd.
    apply read_page_json; [by apply Hnd|].
    apply (page_records_page show) in Hpd as (n & page & -> & Hpage).
    apply Forall_forall. intros line Hline. apply (Hdicts page line); [|done].
    by apply (list_elem_of_fmap_2 Readable). }
  split; [exact Hread|]. split.
  - rewrite Hread, <- untupled_fixed. split; [congruence|by intros ->].
  - intros pd key (n & page & ->)%page_records_elem.
    apply page_word_keys.
Qed.

End report.

(** C9 on [ruled_pdf]: the report is read back with the two end points of
    the ruling as lists. *)
Lemma report_round_trip_witness :
  read_report (json_of_results ruled_report) = Some (untupled ruled_report) /\
  map pd_lines (pages (untupled ruled_report)) =
    [[[(lit "x0", PyFloat 0%Z); (lit "x1", PyFloat 9%Z);
       (lit "object_type", PyStr (lit "line"));
       (lit "pts", PyList [PyList [PyFloat 0%Z; PyFloat 5%Z];
                           PyList [PyFloat 9%Z; PyFloat 5%Z]])]]].
Proof.
  split; [|reflexivity].
  apply (report_round_trip show_whole granting main_pdf_path
           main_output_pdf_path main_output_json_path ruled_pdf
           main_output_json_path ruled_report ruled_report_written).
  intros page line Hpage Hline.
  apply list_elem_of_singleton in Hpage. injection Hpage as ->.
  unfold ruled_page in Hline. cbn [lines] in Hline.
  apply list_elem_of_singleton in Hline. by subst line.
Defined.

(** * Part V: further properties of the program *)

(** ** The title (lines 32 and 66) *)

Lemma split_first (sep : N) (s : pystr) :
  exists rest,
    s = hd [] (split sep s) ++ rest /\
    (rest = [] \/ exists t, rest = sep :: t) /\
    sep ∉ hd [] (split sep s).
Proof.
  induction s as [|c s (rest & Hs & Hrest & Hsep)]; simpl.
  - exists []. split; [done|]. split; [by left|]. apply not_elem_of_nil.
  - destruct (N.eqb_spec c sep) as [->|Hne]; simpl.
    + exists (sep :: s). split; [done|]. split; [right; by eexists|].
      apply not_elem_of_nil.
    + destruct (split sep s) as [|w ws]; simpl in *.
      * exists rest. split; [by rewrite Hs at 1|]. split; [done|].
        intros [?|?]%elem_of_cons; [done|]. by apply Hsep.
      * exists rest. split; [by rewrite Hs at 1|]. split; [done|].
        intros [?|?]%elem_of_cons; [done|]. by apply Hsep.
Qed.

Lemma lstrip_split (s : pystr) :
  exists pre, s = pre ++ lstrip s /\ forallb isspace pre = true.
Proof.
  induction s as [|c s (pre & Hs & Hpre)]; simpl.
  - by exists [].
  - destruct (isspace c) eqn:E.
    + exists (c :: pre). simpl. rewrite E, Hpre. split; [by rewrite <- Hs|done].
    + by exists [].
Qed.

Lemma forallb_rev {A} (f : A -> bool) (l : list A) :
  forallb f (rev l) = forallb f l.
Proof.
  induction l as [|x l IH]; simpl; [done|].
  rewrite forallb_app, IH. simpl. rewrite andb_true_r. apply andb_comm.
Qed.

Lemma rstrip_split (s : pystr) :
  exists suf, s = rstrip s ++ suf /\ forallb isspace suf = true.
Proof.
  unfold rstrip. destruct (lstrip_split (rev s)) as (pre & Hs & Hpre).
  exists (rev pre). split.
  - rewrite <- rev_app_distr, <- Hs. by rewrite rev_involutive.
  - by rewrite forallb_rev.
Qed.

(** [s.strip()] takes white space off both ends and nothing else. *)
Lemma strip_split (s : pystr) :
  exists pre suf,
    s = pre ++ strip s ++ suf /\
    forallb isspace pre = true /\ forallb isspace suf = true.
Proof.
  destruct (lstrip_split s) as (pre & Hs & Hpre).
  destruct (rstrip_split (lstrip s)) as (suf & Hl & Hsuf).
  exists pre, suf. unfold strip. by rewrite <- Hl.
Qed.

(** X1: the title of a page record is the first line of the extracted text
    without the white space around it: the text is some white space, the
    title, some white space, and then nothing or a line feed and the rest;
    the title has no line feed in it and no white space at either end. *)
Theorem title_is_first_line {Num : Type} `{EqDecision Num}
    (show : Num -> pystr) (i : nat) (page : @Page Num) :
  exists pre suf rest,
    extract_text page =
      pre ++ pd_title (make_page_data show i page) ++ suf ++ rest /\
    forallb isspace pre = true /\ forallb isspace suf = true /\
    (rest = [] \/ exists t, rest = 10 :: t) /\
    (10 ∉ pre ++ pd_title (make_page_data show i page) ++ suf) /\
    no_outer_space (pd_title (make_page_data show i page)).
Proof.
  cbn [make_page_data pd_title].
  set (line := if truthy (extract_text page)
               then hd [] (split 10 (extract_text page)) else []).
  assert (Hline : exists rest,
    extract_text page = line ++ rest /\
    (rest = [] \/ exists t, rest = 10 :: t) /\ 10 ∉ line).
  { unfold line. destruct (extract_text page) as [|c t] eqn:E.
    - exists []. split; [done|]. split; [by left|]. apply not_elem_of_nil.
    - apply split_first. }
  destruct Hline as (rest & Htext & Hrest & Hnl).
  destruct (strip_split line) as (pre & suf & Hl & Hpre & Hsuf).
  exists pre, suf, rest.
  split; [rewrite Htext; rewrite Hl at 1; by rewrite <- !app_assoc|].
  split; [done|]. split; [done|]. split; [done|].
  split; [by rewrite <- Hl | apply strip_no_outer_space].
Qed.

(** ** Runs, page by page *)

Section run_facts.
Context {Num : Type} `{EqDecision Num}.
Variable show : Num -> pystr.
Variable h : host.
Variables input_pdf_path output_pdf_path output_json_path : pystr.
Implicit Types (page : @Page Num) (ps : list (@Page Num))
  (pdf : list (@page_read Num)).

Lemma page_records_lookup_total i ps j :
  page_records show i ps !! j = make_page_data show (i + j) <$> ps !! j.
Proof.
  destruct (ps !! j) as [page|] eqn:E; simpl.
  - by apply page_records_lookup.
  - apply lookup_ge_None. rewrite page_records_length.
    by apply lookup_ge_None.
Qed.

(** The record at place [j] of a written report is the record of page [j]
    of the document. *)
Lemma report_record pdf path r j pd :
  WriteJson path r ∈
    (detect_layout show h input_pdf_path output_pdf_path output_json_path
       pdf).1 ->
  pages r !! j = Some pd ->
  exists page,
    pdf !! j = Some (Readable page) /\ pd = make_page_data show j page.
Proof.
  intros (ps & -> & _ & ->)%written_report. simpl pages.
  rewrite page_records_lookup_total.
  destruct (ps !! j) as [page|] eqn:E; simpl; [|done].
  intros [= <-]. exists page. split; [|done].
  change (map Readable ps) with (Readable <$> ps).
  by rewrite list_lookup_fmap, E.
Qed.

(** The page at place [j] of a saved document carries the rectangles of
    page [j]. *)
Lemma document_page pdf path doc j drawn :
  SavePdf path doc ∈
    (detect_layout show h input_pdf_path output_pdf_path output_json_path
       pdf).1 ->
  doc !! j = Some drawn ->
  exists page, pdf !! j = Some (Readable page) /\ drawn = annotations page.
Proof.
  intros (ps & -> & _ & ->)%saved_document.
  change (map annotations ps) with (annotations <$> ps).
  change (map Readable ps) with (Readable <$> ps).
  rewrite !list_lookup_fmap.
  destruct (ps !! j) as [page|]; simpl; [|done].
  intros [= <-]. by exists page.
Qed.

(** X2: in every written report, the [text] field of a page record is the
    text of the last character of the page when the page has characters,
    and the extracted text of the page when it has none. *)
Theorem report_text_field pdf path r j pd :
  WriteJson path r ∈
    (detect_layout show h input_pdf_path output_pdf_path output_json_path
       pdf).1 ->
  pages r !! j = Some pd ->
  exists page,
    pdf !! j = Some (Readable page) /\
    pd_text pd = match last (chars page) with
                 | Some c => char_text c
                 | None => extract_text page
                 end.
Proof.
  intros Hw Hpd. destruct (report_record _ _ _ _ _ Hw Hpd) as (page & Hj & ->).
  exists page. split; [done|]. apply pd_text_last_char.
Qed.

(** X3: in every written report, the record at place [j] has page number
    [j + 1], holds the tables and the lines of page [j] as extracted, and
    its three counts are the lengths of the record's tables, of the page's
    images and of the record's lines. *)
Theorem report_counts pdf path r j pd :
  WriteJson path r ∈
    (detect_layout show h input_pdf_path output_pdf_path output_json_path
       pdf).1 ->
  pages r !! j = Some pd ->
  exists page,
    pdf !! j = Some (Readable page) /\
    pd_page_number pd = S j /\
    pd_tables pd = extract_tables page /\
    pd_lines pd = lines page /\
    pd_tables_count pd = length (pd_tables pd) /\
    pd_images_count pd = length (images page) /\
    pd_lines_count pd = length (pd_lines pd).
Proof.
  intros Hw Hpd. destruct (report_record _ _ _ _ _ Hw Hpd) as (page & Hj & ->).
  exists page. split; [done|]. simpl. split; [lia|done].
Qed.

(** X4: a run that ends without an exception has read every page of a
    document that has at least one page, has asked for a directory whose
    name is not empty, and has written both files: its trace is the
    complete one, and what it hands back is the report it wrote and the
    document it saved. *)
Theorem normal_end_is_complete pdf r doc :
  (detect_layout show h input_pdf_path output_pdf_path output_json_path
     pdf).2 = Some (r, doc) ->
  Forall readable pdf /\ pdf <> [] /\ dirname output_json_path <> [] /\
  (detect_layout show h input_pdf_path output_pdf_path output_json_path
     pdf).1 =
    [MakeDirs (dirname output_json_path) true] ++
    map PrintProcessing (seq 1 (length pdf)) ++
    [SavePdf output_pdf_path doc;
     PrintAnnotated output_pdf_path;
     WriteJson output_json_path r;
     PrintResults output_json_path].
Proof.
  intros Hrun. destruct (readable_or_not pdf) as [Hok|Hin].
  - split; [done|]. destruct (readable_pages pdf Hok) as [ps ->].
    rewrite detect_layout_readable in Hrun |- *. rewrite length_map.
    destruct (makedirs h _) eqn:Hm; [|done].
    destruct (save h _ _) eqn:Hs; [|done].
    destruct (dump_returns h _); [|done].
    cbn [fst snd] in *. injection Hrun as <- <-.
    split; [by destruct ps|]. split; [|done].
    unfold makedirs in Hm. by destruct (dirname output_json_path).
  - destruct (detect_layout_unreadable show h input_pdf_path output_pdf_path
                output_json_path pdf Hin) as (out & Hout & _).
    by rewrite Hout in Hrun.
Qed.

Lemma process_pages_prefix ps pdf :
  forall i done pds extra,
    length done = i ->
    process_pages show i (map Readable ps ++ pdf)
      {| results_pages := pds;
         pdf_document := done ++ replicate (length ps) [] ++ extra |} =
    (map PrintProcessing (seq (i + 1) (length ps)) ++
       (process_pages show (i + length ps) pdf
          {| results_pages := pds ++ page_records show i ps;
             pdf_document := done ++ map annotations ps ++ extra |}).1,
     (process_pages show (i + length ps) pdf
        {| results_pages := pds ++ page_records show i ps;
           pdf_document := done ++ map annotations ps ++ extra |}).2).
Proof.
  induction ps as [|page ps IH]; intros i done pds extra Hlen; simpl.
  - rewrite Nat.add_0_r, app_nil_r. by destruct (process_pages _ _ _ _).
  - unfold draw_on. simpl.
    rewrite list_lookup_middle by done. simpl.
    rewrite <- Hlen, insert_app_r_alt, Nat.sub_diag by done. simpl.
    rewrite (cons_middle (annotations page)), !app_assoc.
    rewrite <- (app_assoc (done ++ _)).
    rewrite (IH (S (length done)) (done ++ [annotations page])
                (pds ++ [make_page_data show (length done) page]) extra)
      by (rewrite length_app; simpl; lia).
    rewrite <- !app_assoc. simpl.
    by replace (length done + S (length ps))%nat
      with (S (length done + length ps)) by lia.
Qed.

(** X5: a run stops at the first page that cannot be read: after the
    directory request it prints one line for each page up to and including
    that page, and nothing else happens; the pages behind it are not looked
    at.  When the directory request itself raises, the run has stopped
    there and nothing is printed. *)
Theorem run_stops_at_first_unreadable ps pdf :
  detect_layout show h input_pdf_path output_pdf_path output_json_path
    (map Readable ps ++ Unreadable :: pdf) =
    ([MakeDirs (dirname output_json_path) true] ++
     (if makedirs h (dirname output_json_path)
      then map PrintProcessing (seq 1 (S (length ps)))
      else []),
     None).
Proof.
  unfold detect_layout, fitz_open.
  destruct (makedirs h _); [|done].
  rewrite length_app, length_map. cbn [length].
  rewrite replicate_add.
  pose proof (process_pages_prefix ps (Unreadable :: pdf) 0 [] []
                (replicate (S (length pdf)) []) eq_refl) as Hrun.
  cbn [app] in Hrun. rewrite Hrun. cbn [process_pages fst snd].
  rewrite seq_S, map_app. simpl. by rewrite Nat.add_1_r.
Qed.

End run_facts.

(** ** Files, rectangles, and pages taken one by one *)

Section run_effects.
Context {Num : Type} `{EqDecision Num}.
Variable show : Num -> pystr.
Variable h : host.
Variables input_pdf_path output_pdf_path output_json_path : pystr.
Implicit Types (page : @Page Num) (ps : list (@Page Num))
  (pdf : list (@page_read Num)).

Lemma written_files_prints (out : list (@event Num)) :
  Forall is_print out -> written_files out = [].
Proof.
  induction 1 as [|e out He _ IH]; [done|].
  by destruct e.
Qed.

Lemma written_files_app (t1 t2 : list (@event Num)) :
  written_files (t1 ++ t2) = written_files t1 ++ written_files t2.
Proof. apply omap_app. Qed.

(** The files of a run: none, the annotated PDF alone, or the annotated
    PDF and then the report; both when the run ends normally, and only
    then. *)
Lemma written_files_run pdf :
  (written_files
     (detect_layout show h input_pdf_path output_pdf_path output_json_path
        pdf).1 = [] /\
   (detect_layout show h input_pdf_path output_pdf_path output_json_path
      pdf).2 = None) \/
  (written_files
     (detect_layout show h input_pdf_path output_pdf_path output_json_path
        pdf).1 = [output_pdf_path] /\
   (detect_layout show h input_pdf_path output_pdf_path output_json_path
      pdf).2 = None) \/
  (written_files
     (detect_layout show h input_pdf_path output_pdf_path output_json_path
        pdf).1 = [output_pdf_path; output_json_path] /\
   exists r doc,
     (detect_layout show h input_pdf_path output_pdf_path output_json_path
        pdf).2 = Some (r, doc)).
Proof.
  destruct (readable_or_not pdf) as [Hok|Hin].
  - destruct (readable_pages pdf Hok) as [ps ->].
    rewrite detect_layout_readable.
    pose proof (written_files_prints _ (prints_are_prints 1 (length ps)))
      as Hprints.
    destruct (makedirs h _); [|by left].
    destruct (save h _ _); [destruct (dump_returns h _)|];
      cbn [fst snd]; rewrite !written_files_app, Hprints.
    + right. right. split; [done|]. by eexists _, _.
    + right. left. by split.
    + left. by split.
  - destruct (detect_layout_unreadable show h input_pdf_path output_pdf_path
                output_json_path pdf Hin) as (out & -> & Hprints).
    left. split; [|done]. cbn [fst].
    change (written_files out = []). by apply written_files_prints.
Qed.

(** X6: a run writes at most two files, the annotated PDF at
    [output_pdf_path] first and the report at [output_json_path] after
    it; a run that ends normally has written both, and a run that has
    written none of them, or the annotated PDF without the report, has
    ended with an exception. *)
Theorem files_written_by_run pdf :
  (written_files
     (detect_layout show h input_pdf_path output_pdf_path output_json_path
        pdf).1 = [] /\
   (detect_layout show h input_pdf_path output_pdf_path output_json_path
      pdf).2 = None) \/
  (written_files
     (detect_layout show h input_pdf_path output_pdf_path output_json_path
        pdf).1 = [output_pdf_path] /\
   (detect_layout show h input_pdf_path output_pdf_path output_json_path
      pdf).2 = None) \/
  (written_files
     (detect_layout show h input_pdf_path output_pdf_path output_json_path
        pdf).1 = [output_pdf_path; output_json_path] /\
   exists r doc,
     (detect_layout show h input_pdf_path output_pdf_path output_json_path
        pdf).2 = Some (r, doc)).
Proof. apply written_files_run. Qed.

(** X7: every rectangle of every page of a saved document is drawn in the
    colour (1, 0, 0) with width 2. *)
Theorem rectangles_red_width_two pdf path doc drawn d :
  SavePdf path doc ∈
    (detect_layout show h input_pdf_path output_pdf_path output_json_path
       pdf).1 ->
  drawn ∈ doc -> d ∈ drawn ->
  d_color d = (1, 0, 0)%nat /\ d_width d = 2%nat.
Proof.
  intros Hs [j Hj]%list_elem_of_lookup Hd.
  destruct (document_page show _ _ _ _ _ _ _ _ _ Hs Hj) as (page & _ & ->).
  unfold annotations in Hd.
  rewrite !elem_of_app, !list_elem_of_fmap in Hd.
  by destruct Hd as [(x & -> & _)|[(x & -> & _)|(x & -> & _)]].
Qed.

(** X8: page [j] of a saved document carries the rectangles of page [j] of
    the input and no others: first the boxes (x0, top, x1, bottom) of its
    images, then the boxes of the tables found on it, then the boxes
    (x0, top, x1, bottom) of its characters, each list in its own order. *)
Theorem rectangles_of_page pdf path doc j page :
  SavePdf path doc ∈
    (detect_layout show h input_pdf_path output_pdf_path output_json_path
       pdf).1 ->
  pdf !! j = Some (Readable page) ->
  exists drawn,
    doc !! j = Some drawn /\
    map d_rect drawn =
      map (fun image =>
             {| rx0 := image_x0 image; ry0 := image_top image;
                rx1 := image_x1 image; ry1 := image_bottom image |})
          (images page) ++
      map (fun table =>
             {| rx0 := (bbox table).1.1.1; ry0 := (bbox table).1.1.2;
                rx1 := (bbox table).1.2; ry1 := (bbox table).2 |})
          (find_tables page) ++
      map (fun char =>
             {| rx0 := char_x0 char; ry0 := char_top char;
                rx1 := char_x1 char; ry1 := char_bottom char |})
          (chars page).
Proof.
  intros (ps & -> & _ & ->)%saved_document Hj%lookup_readable.
  exists (annotations page). split.
  - change (map annotations ps) with (annotations <$> ps).
    by rewrite list_lookup_fmap, Hj.
  - unfold annotations. rewrite !map_app, !map_map. simpl.
    do 2 f_equal. apply map_ext. intros [[[[a b] c] e]]. done.
Qed.

End run_effects.

(** X9: what is stored and drawn for a page depends on that page and on its
    place in the document only: two runs, whatever their paths and their
    other pages, that both write their report give the same record at a
    place where the documents have the same page, and draw the same
    rectangles there. *)
Theorem page_taken_alone {Num : Type} `{EqDecision Num}
    (show : Num -> pystr) (h1 h2 : host)
    (in1 pdf1 json1 in2 pdf2 json2 : pystr)
    (doc1 doc2 : list (@page_read Num)) path1 r1 path2 r2 p1 d1 p2 d2 j :
  WriteJson path1 r1 ∈ (detect_layout show h1 in1 pdf1 json1 doc1).1 ->
  WriteJson path2 r2 ∈ (detect_layout show h2 in2 pdf2 json2 doc2).1 ->
  SavePdf p1 d1 ∈ (detect_layout show h1 in1 pdf1 json1 doc1).1 ->
  SavePdf p2 d2 ∈ (detect_layout show h2 in2 pdf2 json2 doc2).1 ->
  doc1 !! j = doc2 !! j ->
  pages r1 !! j = pages r2 !! j /\ d1 !! j = d2 !! j.
Proof.
  intros (ps1 & -> & _ & ->)%written_report
         (ps2 & -> & _ & ->)%written_report
         (ps1' & Hps1 & _ & ->)%saved_document
         (ps2' & Hps2 & _ & ->)%saved_document Hj.
  apply readable_inj in Hps1 as <-. apply readable_inj in Hps2 as <-.
  change (map Readable ps1) with (Readable <$> ps1) in Hj.
  change (map Readable ps2) with (Readable <$> ps2) in Hj.
  rewrite !list_lookup_fmap in Hj.
  assert (Hpage : ps1 !! j = ps2 !! j).
  { destruct (ps1 !! j), (ps2 !! j); simpl in Hj; congruence. }
  simpl pages. rewrite !page_records_lookup_total, Hpage. split; [done|].
  change (map annotations ps1) with (annotations <$> ps1).
  change (map annotations ps2) with (annotations <$> ps2).
  by rewrite !list_lookup_fmap, Hpage.
Qed.

(** ** The order of the keys *)

Section key_order.
Context {K : Type} `{EqDecision K}.
Implicit Types (k : K) (w : pystr) (d : list (K * list pystr)).

Lemma od_contains_keys {V} k (d : list (K * V)) :
  od_contains k d = true <-> k ∈ od_keys d.
Proof.
  unfold od_contains. pose proof (od_get_None_keys k d) as Hn.
  destruct (od_get k d).
  - split; [intros _|done]. destruct (decide (k ∈ od_keys d)); [done|].
    by apply Hn in n.
  - split; [done|]. intros Hin. by apply Hn in Hin.
Qed.

Lemma od_keys_add_word k w d :
  od_keys (add_word k w d) =
    od_keys d ++ (if decide (k ∈ od_keys d) then [] else [k]).
Proof.
  unfold add_word, od_contains.
  destruct (od_get k d) as [ws|] eqn:G.
  - rewrite G, od_keys_set. unfold od_contains. rewrite G.
    rewrite decide_True, app_nil_r; [done|].
    apply od_get_elem in G. by apply (list_elem_of_fmap_2 fst) in G.
  - rewrite od_get_set, decide_True by done.
    rewrite od_keys_set. unfold od_contains.
    rewrite od_get_set, decide_True by done.
    rewrite od_keys_set. unfold od_contains. rewrite G.
    rewrite decide_False; [done|]. by apply od_get_None_keys.
Qed.

Lemma filter_all {A} (P : A -> Prop) `{forall x, Decision (P x)}
    (l : list A) :
  (forall x, P x) -> filter P l = l.
Proof.
  intros HP. induction l as [|x l IH]; [done|].
  rewrite filter_cons, decide_True by done. by rewrite IH.
Qed.

Lemma od_keys_add_words (l : list (K * pystr)) d :
  od_keys (add_words l d) =
    od_keys d ++ filter (fun y => y ∉ od_keys d) (first_seen (map fst l)).
Proof.
  revert d. induction l as [|[k w] l IH]; intros d; simpl.
  - by rewrite app_nil_r.
  - fold (add_words l (add_word k w d)).
    rewrite IH, od_keys_add_word, filter_cons.
    destruct (decide (k ∈ od_keys d)) as [Hin|Hout].
    + rewrite app_nil_r, decide_False by (by intros ?).
      f_equal. rewrite list_filter_filter. apply list_filter_iff.
      intros y. split; [|by intros [? ?]]. intros Hy.
      split; [done|]. by intros ->.
    + rewrite decide_True by done.
      rewrite <- app_assoc. simpl. do 2 f_equal.
      rewrite list_filter_filter. apply list_filter_iff.
      intros y. rewrite not_elem_of_app, list_elem_of_singleton. tauto.
Qed.
End key_order.

Section grouping_facts.
Context {Num : Type} `{EqDecision Num}.
Implicit Types (c : @Char Num) (r : list (@Char Num))
  (rs : list (list (@Char Num))) (chars : list (@Char Num)).

(** X10: the keys of the [OrderedDict] are the font sizes of the runs that
    reach it, each once, in the order in which the sizes first occur. *)
Theorem keys_in_order_of_first_run chars :
  od_keys (group_words chars) =
    first_seen (map run_size (emitted_runs (runs chars))).
Proof.
  rewrite group_words_emitted, od_keys_add_words, emitted_close, close_entries.
  simpl. rewrite filter_all by (intros ?; apply not_elem_of_nil).
  f_equal. unfold stripped. rewrite !map_map. done.
Qed.

Lemma od_set_words {K} `{EqDecision K} (k : K) (ws : list pystr) w
    (d : list (K * list pystr)) :
  od_get k d = Some ws ->
  concat (map snd (od_set k (ws ++ [w]) d)) ≡ₚ w :: concat (map snd d).
Proof.
  induction d as [|[k0 ws0] d IH]; simpl; [done|].
  destruct (decide (k0 = k)) as [->|Hne]; simpl.
  - intros [= ->]. rewrite <- app_assoc. simpl.
    by rewrite <- Permutation_middle.
  - intros Hget. rewrite (IH Hget). by rewrite Permutation_middle.
Qed.

Lemma add_word_words {K} `{EqDecision K} (k : K) w
    (d : list (K * list pystr)) :
  concat (map snd (add_word k w d)) ≡ₚ w :: concat (map snd d).
Proof.
  unfold add_word, od_contains.
  destruct (od_get k d) as [ws|] eqn:G.
  - rewrite G. by apply od_set_words.
  - rewrite od_get_set, decide_True by done.
    rewrite od_set_words by (by rewrite od_get_set, decide_True).
    rewrite od_set_fresh by (by apply od_get_None_keys).
    by rewrite map_app, concat_app, !app_nil_r.
Qed.

Lemma add_words_words {K} `{EqDecision K} (l : list (K * pystr))
    (d : list (K * list pystr)) :
  concat (map snd (add_words l d)) ≡ₚ concat (map snd d) ++ map snd l.
Proof.
  revert d. induction l as [|[k w] l IH]; intros d; simpl.
  - by rewrite app_nil_r.
  - fold (add_words l (add_word k w d)).
    rewrite IH, add_word_words. simpl. by rewrite Permutation_middle.
Qed.

Lemma emitted_runs_length rs :
  (length (emitted_runs rs) <= length rs)%nat.
Proof.
  induction rs as [|r [|r' rs] IH]; [done| |].
  - simpl. destruct (truthy (run_text r)); simpl; lia.
  - change (S (length (emitted_runs (r' :: rs))) <= S (length (r' :: rs)))%nat.
    lia.
Qed.

Lemma runs_length chars : (length (runs chars) <= length chars)%nat.
Proof.
  induction chars as [|c cs IH]; simpl; [done|].
  destruct (runs cs) as [|[|c' r] rs]; simpl in *; [lia..|].
  destruct (decide (char_size c = char_size c')); simpl; lia.
Qed.

(** X11: taken together, the words of all buckets are, up to their order,
    the stripped texts of the runs that reach the dictionary, one word for
    each run; so there are never more words than characters, and no key
    holds an empty list. *)
Theorem one_word_per_run chars :
  concat (map snd (group_words chars)) ≡ₚ
    map (fun r => strip (run_text r)) (emitted_runs (runs chars)) /\
  (length (concat (map snd (group_words chars))) <= length chars)%nat /\
  forall k ws, (k, ws) ∈ group_words chars -> ws <> [].
Proof.
  assert (Hperm : concat (map snd (group_words chars)) ≡ₚ
    map (fun r => strip (run_text r)) (emitted_runs (runs chars))).
  { rewrite group_words_emitted, add_words_words, emitted_close, close_entries.
    simpl. unfold stripped. by rewrite !map_map. }
  split; [done|]. split.
  - rewrite Hperm, length_map.
    pose proof (emitted_runs_length (runs chars)).
    pose proof (runs_length chars). lia.
  - intros k ws Hin ->.
    apply od_get_of_elem in Hin; [|apply group_words_nodup].
    rewrite od_get_group_words in Hin.
    by destruct (filter _ _).
Qed.

Lemma emitted_same_size (s : Num) (cw : pystr) chars :
  Forall (fun c => char_size c = s) chars ->
  emitted (Some s) cw chars =
    if truthy (cw ++ run_text chars) then [(Some s, cw ++ run_text chars)]
    else [].
Proof.
  revert cw. induction chars as [|c cs IH]; intros cw Hs.
  - unfold run_text. simpl. by rewrite app_nil_r.
  - apply Forall_cons in Hs as [Hc Hcs]. cbn [emitted same_word].
    rewrite Hc, bool_decide_true by done.
    rewrite (IH _ Hcs). unfold run_text. simpl. by rewrite <- app_assoc.
Qed.

(** X12: when all characters of a page have the same font size, the
    dictionary has that size as its only key and one word under it, the
    stripped text of all the characters; it is empty when the characters
    have no text at all. *)
Theorem one_size_one_word (s : Num) chars :
  Forall (fun c => char_size c = s) chars ->
  group_words chars =
    if truthy (run_text chars) then [(Some s, [strip (run_text chars)])]
    else [].
Proof.
  intros Hs. rewrite group_words_emitted.
  destruct chars as [|c cs]; [done|].
  pose proof Hs as [Hc Hcs]%Forall_cons.
  cbn [emitted same_word app]. rewrite Hc, (emitted_same_size s _ cs Hcs).
  change (char_text c ++ run_text cs) with (run_text (c :: cs)).
  destruct (truthy (run_text (c :: cs))); [|done].
  cbn [stripped map add_words fold_left fst snd].
  unfold add_word, od_contains. cbn [od_get od_set].
  by rewrite !decide_True.
Qed.

Lemma emitted_text_size (cfs : option Num) (cw : pystr) chars chars' :
  map (fun c => (char_text c, char_size c)) chars =
    map (fun c => (char_text c, char_size c)) chars' ->
  emitted cfs cw chars = emitted cfs cw chars'.
Proof.
  revert cfs cw chars'.
  induction chars as [|c cs IH]; intros cfs cw [|c' cs']; simpl; try done.
  intros [= Ht Hs Hrest]. rewrite Ht, Hs.
  by rewrite (IH _ _ cs' Hrest), (IH _ _ cs' Hrest).
Qed.

End grouping_facts.

(** X13: the word mapping of a page record depends on the texts and the
    font sizes of the characters only, in their order: not on their boxes,
    not on the page number, not on anything else on the page. *)
Theorem words_depend_on_text_and_size {Num : Type} `{EqDecision Num}
    (show : Num -> pystr) (i i' : nat) (page page' : @Page Num) :
  map (fun c => (char_text c, char_size c)) (chars page) =
    map (fun c => (char_text c, char_size c)) (chars page') ->
  pd_words_with_font_sizes (make_page_data show i page) =
    pd_words_with_font_sizes (make_page_data show i' page').
Proof.
  intros Hc. simpl. rewrite !flush_text_irrelevant, !group_words_emitted.
  by rewrite (emitted_text_size None [] _ _ Hc).
Qed.

(** ** Two stretches of characters *)

Section stretches.
Context {Num : Type} `{EqDecision Num}.
Implicit Types (c : @Char Num) (r : list (@Char Num))
  (rs : list (list (@Char Num))) (chars : list (@Char Num)).

Lemma runs_first c cs :
  exists r rs, runs (c :: cs) = (c :: r) :: rs.
Proof.
  simpl. destruct (runs cs) as [|[|c' r] rs]; [by eexists _, _..|].
  destruct (decide (char_size c = char_size c')); by eexists _, _.
Qed.

Lemma runs_app chars chars' c c' :
  last chars = Some c -> head chars' = Some c' ->
  char_size c <> char_size c' ->
  runs (chars ++ chars') = runs chars ++ runs chars'.
Proof.
  intros Hlast Hhead Hne. destruct chars' as [|c1 cs1]; [done|].
  injection Hhead as ->.
  induction chars as [|c0 [|c2 cs] IH]; [done| |].
  - injection Hlast as ->. cbn [app].
    destruct (runs_first c' cs1) as (r & rs & Hr).
    change (runs (c :: c' :: cs1)) with
      (match runs (c' :: cs1) with
       | (c1 :: r1) :: rs1 =>
           if decide (char_size c = char_size c1)
           then (c :: c1 :: r1) :: rs1 else [c] :: (c1 :: r1) :: rs1
       | rs1 => [c] :: rs1
       end).
    rewrite Hr. by rewrite decide_False.
  - specialize (IH Hlast).
    destruct (runs_first c2 cs) as (r & rs & Hr).
    change (runs ((c0 :: c2 :: cs) ++ c' :: cs1)) with
      (match runs ((c2 :: cs) ++ c' :: cs1) with
       | (c1 :: r1) :: rs1 =>
           if decide (char_size c0 = char_size c1)
           then (c0 :: c1 :: r1) :: rs1 else [c0] :: (c1 :: r1) :: rs1
       | rs1 => [c0] :: rs1
       end).
    change (runs (c0 :: c2 :: cs)) with
      (match runs (c2 :: cs) with
       | (c1 :: r1) :: rs1 =>
           if decide (char_size c0 = char_size c1)
           then (c0 :: c1 :: r1) :: rs1 else [c0] :: (c1 :: r1) :: rs1
       | rs1 => [c0] :: rs1
       end).
    rewrite IH, Hr. cbn [app].
    by destruct (decide (char_size c0 = char_size c2)).
Qed.

Lemma emitted_runs_app rs rs' :
  rs' <> [] -> emitted_runs (rs ++ rs') = rs ++ emitted_runs rs'.
Proof.
  intros Hne. induction rs as [|r rs IH]; [done|].
  cbn [app]. destruct (rs ++ rs') as [|r1 rs1] eqn:E.
  - by destruct rs, rs'.
  - change (r :: emitted_runs (r1 :: rs1) = r :: rs ++ emitted_runs rs').
    by rewrite IH.
Qed.

Lemma last_run_text chars c :
  last chars = Some c -> truthy (char_text c) = true ->
  emitted_runs (runs chars) = runs chars.
Proof.
  intros Hlast Ht. revert c Hlast Ht.
  induction chars as [|c0 [|c2 cs] IH]; intros c Hlast Ht; [done| |].
  - injection Hlast as ->. cbn [runs emitted_runs].
    unfold run_text. cbn [map concat]. rewrite app_nil_r. by rewrite Ht.
  - specialize (IH c Hlast Ht).
    destruct (runs_first c2 cs) as (r & rs & Hr).
    change (runs (c0 :: c2 :: cs)) with
      (match runs (c2 :: cs) with
       | (c1 :: r1) :: rs1 =>
           if decide (char_size c0 = char_size c1)
           then (c0 :: c1 :: r1) :: rs1 else [c0] :: (c1 :: r1) :: rs1
       | rs1 => [c0] :: rs1
       end).
    rewrite Hr in IH |- *.
    destruct (decide (char_size c0 = char_size c2)).
    + destruct rs as [|r' rs].
      * cbn [emitted_runs] in IH |- *.
        destruct (truthy (run_text (c2 :: r))) eqn:E; [|done].
        assert (Hcons : truthy (run_text (c0 :: c2 :: r)) = true).
        { unfold run_text in *. cbn [map concat] in *.
          destruct (char_text c0); [done|done]. }
        by rewrite Hcons.
      * change (emitted_runs ((c2 :: r) :: r' :: rs))
          with ((c2 :: r) :: emitted_runs (r' :: rs)) in IH.
        change (emitted_runs ((c0 :: c2 :: r) :: r' :: rs))
          with ((c0 :: c2 :: r) :: emitted_runs (r' :: rs)).
        assert (IH' : emitted_runs (r' :: rs) = r' :: rs)
          by (injection IH; intros IH'; exact IH').
        by rewrite IH'.
    + change (emitted_runs ([c0] :: (c2 :: r) :: rs))
        with ([c0] :: emitted_runs ((c2 :: r) :: rs)).
      by rewrite IH.
Qed.

Lemma bucket_group_words (k : option Num) chars :
  bucket k (group_words chars) =
    map (fun r => strip (run_text r))
        (filter (fun r => run_size r = k) (emitted_runs (runs chars))).
Proof.
  unfold bucket. rewrite od_get_group_words. by destruct (filter _ _).
Qed.

(** X14: when a stretch of characters that ends in a character with some
    text is followed by a stretch that starts in another font size, the
    words of the whole are, size by size, the words of the first stretch
    followed by the words of the second. *)
Theorem words_of_two_stretches chars chars' c c' (k : option Num) :
  last chars = Some c -> truthy (char_text c) = true ->
  head chars' = Some c' -> char_size c <> char_size c' ->
  bucket k (group_words (chars ++ chars')) =
    bucket k (group_words chars) ++ bucket k (group_words chars').
Proof.
  intros Hlast Ht Hhead Hne.
  rewrite !bucket_group_words, (runs_app chars chars' c c') by done.
  rewrite emitted_runs_app.
  - rewrite <- (last_run_text chars c Hlast Ht) at 1.
    by rewrite filter_app, map_app.
  - destruct chars' as [|c1 cs1]; [done|].
    by destruct (runs_first c1 cs1) as (r & rs & ->).
Qed.

End stretches.

(** ** The directory that is asked for *)


Lemma drop_to_first (c : N) (s t : pystr) :
  c ∉ s -> drop_to c (s ++ c :: t) = c :: t.
Proof.
  induction s as [|c' s IH]; simpl.
  - intros _. by rewrite N.eqb_refl.
  - intros [Hne Hs]%not_elem_of_cons.
    destruct (N.eqb_spec c' c) as [->|_]; [done|]. by apply IH.
Qed.

Lemma elem_of_rev {A} (x : A) (l : list A) : x ∈ rev l <-> x ∈ l.
Proof. rewrite !list_elem_of_In. symmetry. apply in_rev. Qed.


(** [os.path.dirname] of [d/f], where [f] has no slash and [d] does not end
    in one, is [d]. *)
Lemma dirname_split (d f : pystr) (c : N) :
  last d = Some c -> c <> slash -> slash ∉ f ->
  dirname (d ++ slash :: f) = d.
Proof.
  intros Hlast Hc Hf. unfold dirname.
  rewrite rev_app_distr. cbn [rev]. rewrite <- app_assoc. cbn [app].
  rewrite drop_to_first by (by rewrite elem_of_rev).
  cbn [rev]. rewrite rev_involutive.
  destruct d as [|c0 d0] using rev_ind; [done|].
  rewrite last_snoc in Hlast. injection Hlast as ->. clear IHd0.
  assert (Hall : forallb (N.eqb slash) ((d0 ++ [c]) ++ [slash]) = false).
  { rewrite !forallb_app. cbn [forallb].
    destruct (N.eqb_spec slash c) as [?|_]; [done|].
    by rewrite andb_false_r. }
  rewrite Hall.
  assert (Ht : truthy ((d0 ++ [c]) ++ [slash]) = true) by (by destruct d0).
  rewrite Ht. cbn [andb negb].
  rewrite !rev_app_distr. cbn [rev app lstrip_char].
  rewrite N.eqb_refl.
  destruct (N.eqb_spec c slash) as [?|_]; [done|].
  cbn [rev]. by rewrite rev_involutive.
Qed.

Section directory.
Context {Num : Type} `{EqDecision Num}.
Variable show : Num -> pystr.
Variable h : host.
Variables input_pdf_path output_pdf_path : pystr.

(** X15: when the JSON output path is [d/f], [f] without a slash and [d]
    not ending in one, the one directory a run asks for is [d]. *)
Theorem directory_before_last_slash (d f : pystr) (c : N)
    (pdf : list (@page_read Num)) :
  last d = Some c -> c <> slash -> slash ∉ f ->
  created_dirs
    (detect_layout show h input_pdf_path output_pdf_path (d ++ slash :: f)
       pdf).1 = [d].
Proof.
  intros Hlast Hc Hf. rewrite created_dirs_run.
  by rewrite (dirname_split d f c).
Qed.



(** X17: whatever the document is, the entry point asks for the directory
    [output] and for no other, every file it writes lies in that directory,
    and every report it writes names the input [Fraud_Report_2022.pdf]. *)
Theorem main_writes_into_output (pdf : list (@page_read Num)) :
  created_dirs (main show h pdf).1 = [lit "output"] /\
  Forall (fun path => dirname path = lit "output")
         (written_files (main show h pdf).1) /\
  forall path r,
    WriteJson path r ∈ (main show h pdf).1 ->
    pdf_path r = lit "Fraud_Report_2022.pdf".
Proof.
  unfold main. split; [|split].
  - by rewrite created_dirs_run.
  - destruct (written_files_run show h main_pdf_path main_output_pdf_path
                main_output_json_path pdf)
      as [[-> _]|[[-> _]|[-> _]]]; by repeat constructor.
  - by intros path r (ps & _ & _ & ->)%written_report.
Qed.

End directory.

(** ** The further properties on concrete documents *)

(** X4 on [two_pages]: the run on a granting host ends normally. *)
Lemma normal_end_is_complete_witness :
  Forall readable two_pages /\ two_pages <> [] /\
  dirname main_output_json_path <> [] /\
  (detect_layout show_whole granting main_pdf_path main_output_pdf_path
     main_output_json_path two_pages).1 =
    [MakeDirs (dirname main_output_json_path) true] ++
    map PrintProcessing (seq 1 (length two_pages)) ++
    [SavePdf main_output_pdf_path two_pages_document;
     PrintAnnotated main_output_pdf_path;
     WriteJson main_output_json_path (two_pages_report main_pdf_path);
     PrintResults main_output_json_path].
Proof.
  apply (normal_end_is_complete show_whole granting main_pdf_path
           main_output_pdf_path main_output_json_path two_pages
           (two_pages_report main_pdf_path) two_pages_document).
  by rewrite two_pages_run.
Defined.

(** X2 on [two_pages]: the first record holds "i", the text of the last
    character of [busy_page]. *)
Lemma report_text_field_witness :
  exists page,
    two_pages !! 0%nat = Some (Readable page) /\
    pd_text (make_page_data show_whole 0 busy_page) =
      match last (chars page) with
      | Some c => char_text c
      | None => extract_text page
      end.
Proof.
  apply (report_text_field show_whole granting main_pdf_path main_output_pdf_path
           main_output_json_path two_pages main_output_json_path
           (two_pages_report main_pdf_path) 0
           (make_page_data show_whole 0 busy_page)).
  - apply two_pages_report_written.
  - reflexivity.
Defined.

(** X3 on [two_pages]: the second record. *)
Lemma report_counts_witness :
  exists page,
    two_pages !! 1%nat = Some (Readable page) /\
    pd_page_number (make_page_data show_whole 1 empty_page) = 2%nat /\
    pd_tables (make_page_data show_whole 1 empty_page) =
      extract_tables page /\
    pd_lines (make_page_data show_whole 1 empty_page) = lines page /\
    pd_tables_count (make_page_data show_whole 1 empty_page) =
      length (pd_tables (make_page_data show_whole 1 empty_page)) /\
    pd_images_count (make_page_data show_whole 1 empty_page) =
      length (images page) /\
    pd_lines_count (make_page_data show_whole 1 empty_page) =
      length (pd_lines (make_page_data show_whole 1 empty_page)).
Proof.
  apply (report_counts show_whole granting main_pdf_path main_output_pdf_path
           main_output_json_path two_pages main_output_json_path
           (two_pages_report main_pdf_path) 1
           (make_page_data show_whole 1 empty_page)).
  - apply two_pages_report_written.
  - reflexivity.
Defined.

(** X7 on [two_pages]: the rectangle of the image of [busy_page]. *)
Lemma rectangles_red_width_two_witness :
  d_color (draw_rect {| rx0 := 0; ry0 := 0; rx1 := 5; ry1 := 5 |}%Z) =
    (1, 0, 0)%nat /\
  d_width (draw_rect {| rx0 := 0; ry0 := 0; rx1 := 5; ry1 := 5 |}%Z) = 2%nat.
Proof.
  apply (rectangles_red_width_two show_whole granting main_pdf_path
           main_output_pdf_path main_output_json_path two_pages
           main_output_pdf_path two_pages_document (annotations busy_page)).
  - apply two_pages_document_saved.
  - apply elem_of_cons. by left.
  - apply elem_of_cons. by left.
Defined.

(** X8 on [two_pages]: the four rectangles of [busy_page]. *)
Lemma rectangles_of_page_witness :
  exists drawn,
    two_pages_document !! 0%nat = Some drawn /\
    map d_rect drawn =
      [{| rx0 := 0; ry0 := 0; rx1 := 5; ry1 := 5 |};
       {| rx0 := 1; ry0 := 1; rx1 := 4; ry1 := 4 |};
       {| rx0 := 0; ry0 := 0; rx1 := 1; ry1 := 1 |};
       {| rx0 := 0; ry0 := 0; rx1 := 1; ry1 := 1 |}]%Z.
Proof.
  apply (rectangles_of_page show_whole granting main_pdf_path main_output_pdf_path
           main_output_json_path two_pages main_output_pdf_path
           two_pages_document 0 busy_page).
  - apply two_pages_document_saved.
  - reflexivity.
Defined.

(** X9 on [two_pages] and [one_page], which share their first page. *)
Lemma page_taken_alone_witness :
  pages (two_pages_report main_pdf_path) !! 0%nat =
    [make_page_data show_whole 0 busy_page] !! 0%nat /\
  two_pages_document !! 0%nat = [annotations busy_page] !! 0%nat.
Proof.
  apply (page_taken_alone show_whole granting granting
           main_pdf_path main_output_pdf_path main_output_json_path
           (lit "a.pdf") (lit "out/b.pdf") (lit "out/b.json")
           two_pages one_page main_output_json_path
           (two_pages_report main_pdf_path) (lit "out/b.json")
           {| pdf_path := lit "a.pdf";
              pages := [make_page_data show_whole 0 busy_page] |}
           main_output_pdf_path two_pages_document
           (lit "out/b.pdf") [annotations busy_page] 0).
  - apply two_pages_report_written.
  - apply one_page_report_written.
  - apply two_pages_document_saved.
  - apply one_page_document_saved.
  - reflexivity.
Defined.

(** X12 on the characters of [hi_page]. *)
Lemma one_size_one_word_witness :
  group_words (chars hi_page) = [(Some 12%Z, [lit "Hi"])].
Proof.
  apply (one_size_one_word 12%Z (chars hi_page)).
  by repeat constructor.
Defined.

(** X13 on [hi_page] and [busy_page], which have the same characters. *)
Lemma words_depend_on_text_and_size_witness :
  pd_words_with_font_sizes (make_page_data show_whole 0 hi_page) =
    pd_words_with_font_sizes (make_page_data show_whole 1 busy_page).
Proof.
  apply (words_depend_on_text_and_size show_whole 0 1 hi_page busy_page).
  reflexivity.
Defined.

(** X14 on "ab" in size 12 followed by " c" in size 10. *)
Lemma words_of_two_stretches_witness :
  bucket (Some 10%Z)
    (group_words ([mk_char "a" 12; mk_char "b" 12] ++
                  [mk_char " " 10; mk_char "c" 10])) =
  bucket (Some 10%Z) (group_words [mk_char "a" 12; mk_char "b" 12]) ++
  bucket (Some 10%Z) (group_words [mk_char " " 10; mk_char "c" 10]).
Proof.
  apply (words_of_two_stretches [mk_char "a" 12; mk_char "b" 12]
           [mk_char " " 10; mk_char "c" 10]
           (mk_char "b" 12) (mk_char " " 10) (Some 10%Z)).
  - reflexivity.
  - reflexivity.
  - reflexivity.
  - simpl. lia.
Defined.

(** X15 on the JSON path of the entry point. *)
Lemma directory_before_last_slash_witness :
  created_dirs
    (detect_layout show_whole granting main_pdf_path main_output_pdf_path
       (lit "output" ++ slash :: lit "layout_results1.json") two_pages).1 =
    [lit "output"].
Proof.
  apply (directory_before_last_slash show_whole granting main_pdf_path
           main_output_pdf_path (lit "output") (lit "layout_results1.json")
           116 two_pages).
  - reflexivity.
  - unfold slash. lia.
  - apply (bool_decide_unpack _). by vm_compute.
Defined.


